(** * quant_lab: gesture-driven particle engine

    A shallow embedding of the gesture detector ([GestureDetector.js]), the
    force helpers ([Physics.js]), the particle buffer ([ParticleSystem.js])
    and the orbital mode ([AtomMode.js]), with the properties the
    specification states about them.

    Conventions of the embedding.
    - A JavaScript number is a real number ([R]): rounding, overflow and the
      32-bit storage of [Float32Array] are not represented.  The one place
      where the detector can produce a value that is not a real number (the
      quotient and the arc cosine of [getFingerCurlAngle]) uses the type
      [number] with an explicit [NaN].
    - Loop counters and array indices are [nat] (or [Z] where the source
      subtracts from an index).
    - A [TypeError] (reading a field of [undefined]) and a read outside an
      array are results [None] of the option monad.
    - [Math.random] reads a tape of draws that is passed explicitly.
    - [console.log], the debug canvas and the scene objects are not
      represented. *)

From Stdlib Require Import Reals Lra Lia ZArith Bool.
From stdpp Require Import base option list.

Open Scope R_scope.

(** ** Numbers *)

Module Num.

(** [a < b] and [a === b] on numbers, as booleans. *)
Definition ltb (a b : R) : bool := if Rlt_dec a b then true else false.
Definition gtb (a b : R) : bool := ltb b a.
Definition eqb (a b : R) : bool := if Req_dec_T a b then true else false.

(** [a || d] for a number [a]: [0] is falsy. *)
Definition or_else (a d : R) : R := if eqb a 0 then d else a.

(** A number that may be [NaN]. *)
Inductive number : Type :=
| Num (r : R)
| NaN.

(** [a / b].  A zero divisor gives [NaN] here: the infinities of
    JavaScript are not represented, and the only quotient of the detector
    is guarded against a zero divisor. *)
Definition div (a b : R) : number :=
  if eqb b 0 then NaN else Num (a / b).

(** [Math.max(lo, Math.min(hi, q))]; [NaN] goes through both. *)
Definition clamp (lo hi : R) (q : number) : number :=
  match q with
  | Num r => Num (Rmax lo (Rmin hi r))
  | NaN => NaN
  end.

(** [Math.acos]: [NaN] outside [-1, 1]. *)
Definition js_acos (q : number) : number :=
  match q with
  | Num r => if ltb r (-1) || ltb 1 r then NaN else Num (acos r)
  | NaN => NaN
  end.

Definition mul (q : number) (k : R) : number :=
  match q with
  | Num r => Num (r * k)
  | NaN => NaN
  end.

(** Comparisons with [NaN] are false. *)
Definition number_gtb (q : number) (k : R) : bool :=
  match q with
  | Num r => gtb r k
  | NaN => false
  end.

Definition number_ltb (q : number) (k : R) : bool :=
  match q with
  | Num r => ltb r k
  | NaN => false
  end.

End Num.

(** ** Random draws

    Every call of [Math.random()] consumes the head of a tape. *)

Module Random.

Definition tape : Type := nat -> R.

Definition Math_random (t : tape) : R * tape :=
  (t 0%nat, fun n => t (S n)).

End Random.

(** ** Vectors *)

Module Vector3.

(** Modelled from the spec: the [Vector3] class of three.js, an external
    dependency whose code is not among the sources (spec section 2,
    VectorMath: add, subtract, normalize, scale, length, distance).  The methods mutate
    their receiver and return it; every receiver below is either a fresh
    vector or the one velocity cell it is written back to, so vectors are
    values here. *)
Record t : Type := mk { x : R; y : R; z : R }.

Definition zero : t := mk 0 0 0.

Definition subVectors (a b : t) : t :=
  mk (x a - x b) (y a - y b) (z a - z b).

Definition add (v w : t) : t :=
  mk (x v + x w) (y v + y w) (z v + z w).

Definition sub (v w : t) : t :=
  mk (x v - x w) (y v - y w) (z v - z w).

Definition multiplyScalar (v : t) (s : R) : t :=
  mk (x v * s) (y v * s) (z v * s).

Definition divideScalar (v : t) (s : R) : t :=
  multiplyScalar v (1 / s).

Definition length (v : t) : R :=
  sqrt (x v * x v + y v * y v + z v * z v).

(** [divideScalar(this.length() || 1)] *)
Definition normalize (v : t) : t :=
  divideScalar v (Num.or_else (length v) 1).

Definition distanceTo (v w : t) : R :=
  length (subVectors v w).

Definition clone (v : t) : t := v.

Definition dot (v w : t) : R :=
  x v * x w + y v * y w + z v * z w.

End Vector3.

(** ** Physics.js *)

Module Physics.
Import Vector3 Random.

(** [Physics.attractionForce(position, target, strength)] *)
Definition attractionForce (position target : Vector3.t) (strength : R) : Vector3.t :=
  let direction := subVectors target position in
  let distance := length direction in
  if Num.ltb distance 0.1 then mk 0 0 0
  else
    let direction := normalize direction in
    let forceMagnitude := strength / (distance * distance + 0.1) in
    multiplyScalar direction forceMagnitude.

(** [Physics.repulsionForce(position, target, strength)]; the three draws
    are taken in argument order, and only when the particle is closer
    than 0.1 to the target. *)
Definition repulsionForce (position target : Vector3.t) (strength : R)
    (rnd : tape) : Vector3.t * tape :=
  let direction := subVectors position target in
  let distance := length direction in
  if Num.ltb distance 0.1 then
    let '(r1, rnd) := Math_random rnd in
    let '(r2, rnd) := Math_random rnd in
    let '(r3, rnd) := Math_random rnd in
    (multiplyScalar (mk (r1 - 0.5) (r2 - 0.5) (r3 - 0.5)) (strength * 10),
     rnd)
  else
    let direction := normalize direction in
    let forceMagnitude := strength / (distance + 0.1) in
    (multiplyScalar direction forceMagnitude, rnd).

(** [Physics.orbitalForce(position, center, speed)] *)
Definition orbitalForce (position center : Vector3.t) (speed : R) : Vector3.t :=
  let toCenter := subVectors center position in
  let distance := length toCenter in
  if Num.ltb distance 0.1 then mk 0 0 0
  else
    let tangent := normalize (mk (- y toCenter) (x toCenter) 0) in
    multiplyScalar tangent speed.

(** [Physics.applyFriction(velocity, friction)] *)
Definition applyFriction (velocity : Vector3.t) (friction : R) : Vector3.t :=
  multiplyScalar velocity friction.

(** [Physics.limitSpeed(velocity, maxSpeed)] *)
Definition limitSpeed (velocity : Vector3.t) (maxSpeed : R) : Vector3.t :=
  let speed := length velocity in
  if Num.gtb speed maxSpeed then
    multiplyScalar (normalize velocity) maxSpeed
  else velocity.

(** [Physics.randomDrift(strength)] *)
Definition randomDrift (strength : R) (rnd : tape) : Vector3.t * tape :=
  let '(r1, rnd) := Math_random rnd in
  let '(r2, rnd) := Math_random rnd in
  let '(r3, rnd) := Math_random rnd in
  (mk ((r1 - 0.5) * strength) ((r2 - 0.5) * strength) ((r3 - 0.5) * strength),
   rnd).

(** [Physics.screenToWorld(x, y, z)] *)
Definition screenToWorld (sx sy sz : R) : Vector3.t :=
  let worldX := (sx - 0.5) * 2 * 20 in
  let worldY := - (sy - 0.5) * 2 * 15 in
  mk worldX worldY sz.

(** [Physics.distance(v1, v2)] *)
Definition distance (v1 v2 : Vector3.t) : R := distanceTo v1 v2.



(** [Physics.spiralGalaxyForce(position, center, rotation)] *)
Definition spiralGalaxyForce (position center : Vector3.t) (rotation : R)
    : Vector3.t :=
  let toCenter := subVectors center position in
  let distance := length toCenter in
  if Num.ltb distance 0.1 then mk 0 0 0
  else
    let radial := multiplyScalar (normalize (clone toCenter)) 0.5 in
    let tangent :=
      multiplyScalar (normalize (mk (- y toCenter) (x toCenter) 0))
                     (rotation / sqrt distance) in
    add radial tangent.

End Physics.

(** ** GestureDetector.js *)

Module GestureDetector.

(** The values of [gesture.type] that occur in the sources.  The
    detector emits the first four; [THUMB_UP] is only tested for by the
    atom and galaxy modes. *)
Inductive GestureType : Type :=
| NONE
| PINCH
| PEACE
| FULL_OPEN
| THUMB_UP.

Definition GestureType_eqb (a b : GestureType) : bool :=
  match a, b with
  | NONE, NONE | PINCH, PINCH | PEACE, PEACE
  | FULL_OPEN, FULL_OPEN | THUMB_UP, THUMB_UP => true
  | _, _ => false
  end.

(** [{ type, confidence }] *)
Record Gesture : Type := mkGesture { type : GestureType; confidence : R }.

(** One MediaPipe point; [z] may be missing ([point.z || 0]). *)
Record Landmark : Type := mkLandmark { x : R; y : R; z : option R }.

Definition z_or_0 (p : Landmark) : R :=
  match z p with
  | Some v => Num.or_else v 0
  | None => 0
  end.

(** The fields of a detector. *)
Record t : Type := mk {
  PINCH_THRESHOLD : R;
  EXTENDED_ANGLE_THRESHOLD : R;
  CURL_ANGLE_THRESHOLD : R;
  PEACE_V_SPREAD_RATIO : R;
  PEACE_V_MIN_SPREAD : R;
  FULL_OPEN_SPREAD_THRESHOLD : R;
  lastGesture : GestureType;
  gestureStableCount : nat;
  STABLE_FRAMES : nat;
  debugMode : bool;
  frameCount : nat
}.

(** Assignments to the three fields that [detect] and [reset] write. *)
Definition set_lastGesture (g : GestureType) (this : t) : t :=
  mk (PINCH_THRESHOLD this) (EXTENDED_ANGLE_THRESHOLD this)
     (CURL_ANGLE_THRESHOLD this) (PEACE_V_SPREAD_RATIO this)
     (PEACE_V_MIN_SPREAD this) (FULL_OPEN_SPREAD_THRESHOLD this)
     g (gestureStableCount this) (STABLE_FRAMES this) (debugMode this)
     (frameCount this).

Definition set_gestureStableCount (n : nat) (this : t) : t :=
  mk (PINCH_THRESHOLD this) (EXTENDED_ANGLE_THRESHOLD this)
     (CURL_ANGLE_THRESHOLD this) (PEACE_V_SPREAD_RATIO this)
     (PEACE_V_MIN_SPREAD this) (FULL_OPEN_SPREAD_THRESHOLD this)
     (lastGesture this) n (STABLE_FRAMES this) (debugMode this)
     (frameCount this).

Definition set_frameCount (n : nat) (this : t) : t :=
  mk (PINCH_THRESHOLD this) (EXTENDED_ANGLE_THRESHOLD this)
     (CURL_ANGLE_THRESHOLD this) (PEACE_V_SPREAD_RATIO this)
     (PEACE_V_MIN_SPREAD this) (FULL_OPEN_SPREAD_THRESHOLD this)
     (lastGesture this) (gestureStableCount this) (STABLE_FRAMES this)
     (debugMode this) n.

(** [new GestureDetector()] *)
Definition constructor : t :=
  {| PINCH_THRESHOLD := 0.08;
     EXTENDED_ANGLE_THRESHOLD := 165;
     CURL_ANGLE_THRESHOLD := 150;
     PEACE_V_SPREAD_RATIO := 0.35;
     PEACE_V_MIN_SPREAD := 0.025;
     FULL_OPEN_SPREAD_THRESHOLD := 0.15;
     lastGesture := NONE;
     gestureStableCount := 0;
     STABLE_FRAMES := 2;
     debugMode := true;
     frameCount := 0 |}.

(** [landmarks[i]]: [None] stands for [undefined], whose fields cannot be
    read. *)
Definition at_index (landmarks : list Landmark) (i : Z) : option Landmark :=
  if (i <? 0)%Z then None else landmarks !! Z.to_nat i.

(** [calculateDistance(point1, point2)] *)
Definition calculateDistance (point1 point2 : Landmark) : R :=
  let dx := x point1 - x point2 in
  let dy := y point1 - y point2 in
  let dz := z_or_0 point1 - z_or_0 point2 in
  sqrt (dx * dx + dy * dy + dz * dz).

(** [getFingerCurlAngle(landmarks, tipIndex)] *)
Definition getFingerCurlAngle (landmarks : list Landmark) (tipIndex : Z)
    : option Num.number :=
  mcp ← at_index landmarks (tipIndex - 3);
  pip ← at_index landmarks (tipIndex - 2);
  dip ← at_index landmarks (tipIndex - 1);
  let v1 := Vector3.mk (x mcp - x pip) (y mcp - y pip)
                       (z_or_0 mcp - z_or_0 pip) in
  let v2 := Vector3.mk (x dip - x pip) (y dip - y pip)
                       (z_or_0 dip - z_or_0 pip) in
  let dot := Vector3.x v1 * Vector3.x v2 + Vector3.y v1 * Vector3.y v2
             + Vector3.z v1 * Vector3.z v2 in
  let mag1 := sqrt (Vector3.x v1 * Vector3.x v1 + Vector3.y v1 * Vector3.y v1
                    + Vector3.z v1 * Vector3.z v1) in
  let mag2 := sqrt (Vector3.x v2 * Vector3.x v2 + Vector3.y v2 * Vector3.y v2
                    + Vector3.z v2 * Vector3.z v2) in
  if Num.eqb mag1 0 || Num.eqb mag2 0 then Some (Num.Num 180)
  else
    let cosAngle := Num.clamp (-1) 1 (Num.div dot (mag1 * mag2)) in
    Some (Num.mul (Num.js_acos cosAngle) (180 / PI)).

(** [isFingerExtended(landmarks, tipIndex)] *)
Definition isFingerExtended (this : t) (landmarks : list Landmark)
    (tipIndex : Z) : option bool :=
  tip ← at_index landmarks tipIndex;
  dip ← at_index landmarks (tipIndex - 1);
  mcp ← at_index landmarks (tipIndex - 3);
  let tipToMcp := calculateDistance tip mcp in
  let dipToMcp := calculateDistance dip mcp in
  curlAngle ← getFingerCurlAngle landmarks tipIndex;
  Some (Num.gtb tipToMcp (dipToMcp * 1.1)
        || Num.number_gtb curlAngle (EXTENDED_ANGLE_THRESHOLD this)).

(** [isFingerCurled(landmarks, tipIndex)] *)
Definition isFingerCurled (this : t) (landmarks : list Landmark)
    (tipIndex : Z) : option bool :=
  tip ← at_index landmarks tipIndex;
  dip ← at_index landmarks (tipIndex - 1);
  mcp ← at_index landmarks (tipIndex - 3);
  let tipToMcp := calculateDistance tip mcp in
  let dipToMcp := calculateDistance dip mcp in
  curlAngle ← getFingerCurlAngle landmarks tipIndex;
  Some (Num.ltb tipToMcp (dipToMcp * 1.05)
        || Num.number_ltb curlAngle (CURL_ANGLE_THRESHOLD this)).

(** [isThumbExtended(landmarks)] *)
Definition isThumbExtended (landmarks : list Landmark) : option bool :=
  thumbTip ← at_index landmarks 4;
  thumbMcp ← at_index landmarks 2;
  wrist ← at_index landmarks 0;
  let tipToWrist := calculateDistance thumbTip wrist in
  let mcpToWrist := calculateDistance thumbMcp wrist in
  Some (Num.gtb tipToWrist (mcpToWrist * 1.3)).

(** [getPalmWidth(landmarks)] *)
Definition getPalmWidth (landmarks : list Landmark) : option R :=
  indexMcp ← at_index landmarks 5;
  pinkyMcp ← at_index landmarks 17;
  Some (calculateDistance indexMcp pinkyMcp).

(** [isPinch(landmarks)] *)
Definition isPinch (this : t) (landmarks : list Landmark) : option bool :=
  thumbTip ← at_index landmarks 4;
  indexTip ← at_index landmarks 8;
  thumbExtended ← isThumbExtended landmarks;
  indexExtended ← isFingerExtended this landmarks 8;
  if negb thumbExtended || negb indexExtended then Some false
  else
    let distance := calculateDistance thumbTip indexTip in
    Some (Num.ltb distance (PINCH_THRESHOLD this)).

(** [isPeaceSign(landmarks)] *)
Definition isPeaceSign (this : t) (landmarks : list Landmark) : option bool :=
  indexExtended ← isFingerExtended this landmarks 8;
  middleExtended ← isFingerExtended this landmarks 12;
  thumbExtended ← isThumbExtended landmarks;
  ringCurled ← isFingerCurled this landmarks 16;
  pinkyCurled ← isFingerCurled this landmarks 20;
  p8 ← at_index landmarks 8;
  p12 ← at_index landmarks 12;
  let fingerGap := calculateDistance p8 p12 in
  palmWidth ← getPalmWidth landmarks;
  let requiredGap :=
    Rmax (PEACE_V_MIN_SPREAD this) (palmWidth * PEACE_V_SPREAD_RATIO this) in
  Some (indexExtended && middleExtended && ringCurled && pinkyCurled
        && Num.gtb fingerGap requiredGap).

(** [isFullHandOpen(landmarks)] *)
Definition isFullHandOpen (this : t) (landmarks : list Landmark)
    : option bool :=
  e8 ← isFingerExtended this landmarks 8;
  e12 ← isFingerExtended this landmarks 12;
  e16 ← isFingerExtended this landmarks 16;
  e20 ← isFingerExtended this landmarks 20;
  let fingersExtended := [e8; e12; e16; e20] in
  thumbExtended ← isThumbExtended landmarks;
  palmWidth ← getPalmWidth landmarks;
  let spreadWide := Num.gtb palmWidth (FULL_OPEN_SPREAD_THRESHOLD this) in
  Some (forallb (fun e => e) fingersExtended && thumbExtended && spreadWide).

(** The raw classification of [detect] (lines 35-36 and 64-75): the
    predicates are tried in the order PINCH, PEACE, FULL_OPEN. *)
Definition rawGesture (this : t) (landmarks : list Landmark)
    : option Gesture :=
  pinch ← isPinch this landmarks;
  if (pinch : bool) then Some (mkGesture PINCH 0.9)
  else
    peace ← isPeaceSign this landmarks;
    if (peace : bool) then Some (mkGesture PEACE 0.85)
    else
      full ← isFullHandOpen this landmarks;
      if (full : bool) then Some (mkGesture FULL_OPEN 0.9)
      else Some (mkGesture NONE 0).

(** The stability check of [detect] (lines 77-90) on the raw
    classification. *)
Definition stabilize (this : t) (raw : Gesture) : t * Gesture :=
  let this' :=
    if GestureType_eqb (type raw) (lastGesture this) then
      set_gestureStableCount (S (gestureStableCount this)) this
    else
      set_lastGesture (type raw) (set_gestureStableCount 0%nat this)
  in
  if (STABLE_FRAMES this' <=? gestureStableCount this')%nat then
    (this', mkGesture (type raw) (confidence raw))
  else
    (this', mkGesture NONE 0).

(** [detect(landmarks)]; [None] as argument is a missing frame ([null]).
    The values computed for the debug log (lines 39-47) are computed
    and dropped. *)
Definition detect (this : t) (landmarks : option (list Landmark))
    : option (t * Gesture) :=
  match landmarks with
  | None => Some (this, mkGesture NONE 0)
  | Some landmarks =>
    if negb (length landmarks =? 21)%nat then Some (this, mkGesture NONE 0)
    else
      p4 ← at_index landmarks 4;
      p8 ← at_index landmarks 8;
      let pinchDist := calculateDistance p4 p8 in
      f0 ← isFingerExtended this landmarks 8;
      f1 ← isFingerExtended this landmarks 12;
      f2 ← isFingerExtended this landmarks 16;
      f3 ← isFingerExtended this landmarks 20;
      thumbExt ← isThumbExtended landmarks;
      palmWidth ← getPalmWidth landmarks;
      let this := set_frameCount (S (frameCount this)) this in
      raw ← rawGesture this landmarks;
      Some (stabilize this raw)
  end.

(** [reset()] *)
Definition reset (this : t) : t :=
  set_gestureStableCount 0%nat (set_lastGesture NONE this).

(** Successive calls of [detect] on one detector, with the gestures
    returned. *)
Fixpoint detectAll (this : t) (frames : list (option (list Landmark)))
    : option (t * list Gesture) :=
  match frames with
  | [] => Some (this, [])
  | f :: frames =>
    '(this, g) ← detect this f;
    '(this, gs) ← detectAll this frames;
    Some (this, g :: gs)
  end.

(** [isOpenPalm(landmarks)] *)
Definition isOpenPalm (this : t) (landmarks : list Landmark) : option bool :=
  e8 ← isFingerExtended this landmarks 8;
  e12 ← isFingerExtended this landmarks 12;
  e16 ← isFingerExtended this landmarks 16;
  e20 ← isFingerExtended this landmarks 20;
  let fingersExtended := [e8; e12; e16; e20] in
  let extendedCount := length (List.filter (fun e => e) fingersExtended) in
  Some (4 <=? extendedCount)%nat.

(** [isFist(landmarks)]; the distance between the thumb and index tips is
    computed for the debug log only. *)
Definition isFist (this : t) (landmarks : list Landmark) : option bool :=
  c8 ← isFingerCurled this landmarks 8;
  c12 ← isFingerCurled this landmarks 12;
  c16 ← isFingerCurled this landmarks 16;
  c20 ← isFingerCurled this landmarks 20;
  let curledStates := [c8; c12; c16; c20] in
  let curledCount := length (List.filter (fun e => e) curledStates) in
  thumbExtended ← isThumbExtended landmarks;
  let thumbCurled := negb thumbExtended in
  p4 ← at_index landmarks 4;
  p8 ← at_index landmarks 8;
  let pinchDist := calculateDistance p4 p8 in
  Some ((3 <=? curledCount)%nat && thumbCurled).

(** [isThumbsUp(landmarks)] *)
Definition isThumbsUp (this : t) (landmarks : list Landmark) : option bool :=
  thumbExtended ← isThumbExtended landmarks;
  c8 ← isFingerCurled this landmarks 8;
  c12 ← isFingerCurled this landmarks 12;
  c16 ← isFingerCurled this landmarks 16;
  c20 ← isFingerCurled this landmarks 20;
  let otherCurled := [c8; c12; c16; c20] in
  let curledCount := length (List.filter (fun e => e) otherCurled) in
  wrist ← at_index landmarks 0;
  thumbTip ← at_index landmarks 4;
  let thumbAboveWrist := Num.gtb (y wrist - y thumbTip) 0.05 in
  Some (thumbExtended && (3 <=? curledCount)%nat && thumbAboveWrist).

(** A palm centre: [z] is NaN when one of the three landmarks has no
    [z]. *)
Record PalmCenter : Type :=
  mkPalmCenter { cx : R; cy : R; cz : Num.number }.

(** [a.z + b.z + c.z) / 3] on depths that may be missing. *)
Definition mean_z (a b c : Landmark) : Num.number :=
  match z a, z b, z c with
  | Some za, Some zb, Some zc => Num.Num ((za + zb + zc) / 3)
  | _, _, _ => Num.NaN
  end.

(** [getPalmCenter(landmarks)] *)
Definition getPalmCenter (landmarks : list Landmark) : option PalmCenter :=
  wrist ← at_index landmarks 0;
  indexMcp ← at_index landmarks 5;
  pinkyMcp ← at_index landmarks 17;
  Some (mkPalmCenter ((x wrist + x indexMcp + x pinkyMcp) / 3)
                     ((y wrist + y indexMcp + y pinkyMcp) / 3)
                     (mean_z wrist indexMcp pinkyMcp)).


End GestureDetector.

(** ** ParticleSystem.js *)

Module ParticleSystem.

(** [for (let i = start; i < start + n; i++) body], where the body may
    fail. *)
Fixpoint forLoop {St : Type} (body : nat -> St -> option St) (start n : nat)
    (s : St) : option St :=
  match n with
  | O => Some s
  | S n' => s' ← body start s; forLoop body (S start) n' s'
  end.

(** The fields of a particle system.  [positions] and [colors] are the
    flat buffers of the geometry (three numbers per particle), [sizes] has
    one number per particle, [uTime] is the uniform of the material. *)
Record t : Type := mk {
  particleCount : nat;
  positions : list R;
  colors : list R;
  sizes : list R;
  velocities : list Vector3.t;
  originalPositions : list Vector3.t;
  uTime : R
}.

Definition set_positions (ps : list R) (this : t) : t :=
  mk (particleCount this) ps (colors this) (sizes this) (velocities this)
     (originalPositions this) (uTime this).

Definition set_colors (cs : list R) (this : t) : t :=
  mk (particleCount this) (positions this) cs (sizes this) (velocities this)
     (originalPositions this) (uTime this).

Definition set_velocities (vs : list Vector3.t) (this : t) : t :=
  mk (particleCount this) (positions this) (colors this) (sizes this) vs
     (originalPositions this) (uTime this).

Definition set_uTime (u : R) (this : t) : t :=
  mk (particleCount this) (positions this) (colors this) (sizes this)
     (velocities this) (originalPositions this) u.

(** What [init] establishes: the buffers have the sizes that go with
    [particleCount]. *)
Definition well_formed (this : t) : Prop :=
  length (positions this) = (particleCount this * 3)%nat /\
  length (colors this) = (particleCount this * 3)%nat /\
  length (sizes this) = particleCount this /\
  length (velocities this) = particleCount this.

(** [buffer[i] += d] on a typed array.  A read outside the buffer is a
    failure of the model (JavaScript would compute with [undefined]). *)
Definition add_at (buffer : list R) (i : nat) (d : R) : option (list R) :=
  old ← buffer !! i; Some (<[i := old + d]> buffer).

(** One round of the loop of [update] (lines 383-391). *)
Definition update_body (deltaTime : R) (i : nat) (this : t) : option t :=
  let i3 := (i * 3)%nat in
  v ← velocities this !! i;
  ps ← add_at (positions this) i3 (Vector3.x v * deltaTime * 2.0);
  ps ← add_at ps (i3 + 1) (Vector3.y v * deltaTime * 2.0);
  ps ← add_at ps (i3 + 2) (Vector3.z v * deltaTime * 2.0);
  let this := set_positions ps this in
  v ← velocities this !! i;
  Some (set_velocities (<[i := Physics.applyFriction v 0.95]> (velocities this))
                       this).

(** [update(deltaTime, time)] *)
Definition update (deltaTime time : R) (this : t) : option t :=
  this ← forLoop (update_body deltaTime) 0 (particleCount this) this;
  Some (set_uTime time this).

(** What [applyForce] does to the velocity of a particle that receives
    the force [force] (lines 418-421). *)
Definition accelerate (velocity force : Vector3.t) : Vector3.t :=
  let velocity := Vector3.add velocity force in
  Physics.limitSpeed velocity 5.0.

(** A force function: a closure with an environment of type [E] that it
    may change (a random tape, for instance).  The outer [None] is a
    failure of the closure, the inner [None] is a [null] force. *)
Definition forceFunction (E : Type) : Type :=
  Vector3.t -> nat -> E -> option (option Vector3.t * E).

(** One round of the loop of [applyForce] (lines 407-422). *)
Definition applyForce_body {E : Type} (f : forceFunction E) (i : nat)
    (s : t * E) : option (t * E) :=
  let '(this, env) := s in
  let i3 := (i * 3)%nat in
  px ← positions this !! i3;
  py ← positions this !! (i3 + 1)%nat;
  pz ← positions this !! (i3 + 2)%nat;
  let position := Vector3.mk px py pz in
  '(force, env) ← f position i env;
  match force with
  | Some force =>
    v ← velocities this !! i;
    Some (set_velocities (<[i := accelerate v force]> (velocities this)) this,
          env)
  | None => Some (this, env)
  end.

(** [applyForce(forceFunction)] *)
Definition applyForce {E : Type} (f : forceFunction E) (this : t) (env : E)
    : option (t * E) :=
  forLoop (applyForce_body f) 0 (particleCount this) (this, env).

(** A force function without environment. *)
Definition pureForce (f : Vector3.t -> nat -> option Vector3.t)
    : forceFunction unit :=
  fun position i env => Some (f position i, env).

(** Successive calls of [applyForce], one per force function. *)
Fixpoint applyForces (fs : list (Vector3.t -> nat -> option Vector3.t))
    (this : t) : option t :=
  match fs with
  | [] => Some this
  | f :: fs => '(this, _) ← applyForce (pureForce f) this tt; applyForces fs this
  end.

(** [THREE.Color] *)
Record Color : Type := mkColor { r : R; g : R; b : R }.

(** One round of the loop of [updateColors] (lines 432-438); a write
    outside the buffer is dropped. *)
Definition updateColors_body (colorFunction : nat -> option Color) (i : nat)
    (this : t) : option t :=
  let i3 := (i * 3)%nat in
  color ← colorFunction i;
  let cs := <[i3 := r color]> (colors this) in
  let cs := <[(i3 + 1)%nat := g color]> cs in
  let cs := <[(i3 + 2)%nat := b color]> cs in
  Some (set_colors cs this).

(** [updateColors(colorFunction)] *)
Definition updateColors (colorFunction : nat -> option Color) (this : t)
    : option t :=
  forLoop (updateColors_body colorFunction) 0 (particleCount this) this.

(** [getPosition(index)] *)
Definition getPosition (this : t) (index : nat) : option Vector3.t :=
  let i3 := (index * 3)%nat in
  px ← positions this !! i3;
  py ← positions this !! (i3 + 1)%nat;
  pz ← positions this !! (i3 + 2)%nat;
  Some (Vector3.mk px py pz).

(** One round of the loop of [init] (lines 326-355).  The position is
    written to the buffer and read back for [originalPositions]; four
    numbers are drawn: radius, theta, phi and size. *)
Definition init_body (i : nat) (s : t * Random.tape)
    : option (t * Random.tape) :=
  let '(this, rnd) := s in
  let i3 := (i * 3)%nat in
  let '(r1, rnd) := Random.Math_random rnd in
  let radius := r1 * 10 in
  let '(r2, rnd) := Random.Math_random rnd in
  let theta := r2 * PI * 2 in
  let '(r3, rnd) := Random.Math_random rnd in
  let phi := r3 * PI in
  let ps := <[i3 := radius * sin phi * cos theta]> (positions this) in
  let ps := <[(i3 + 1)%nat := radius * sin phi * sin theta]> ps in
  let ps := <[(i3 + 2)%nat := radius * cos phi]> ps in
  px ← ps !! i3;
  py ← ps !! (i3 + 1)%nat;
  pz ← ps !! (i3 + 2)%nat;
  let originals := originalPositions this ++ [Vector3.mk px py pz] in
  let vs := velocities this ++ [Vector3.mk 0 0 0] in
  let cs := <[i3 := 0.0]> (colors this) in
  let cs := <[(i3 + 1)%nat := 0.6]> cs in
  let cs := <[(i3 + 2)%nat := 0.8]> cs in
  let '(r4, rnd) := Random.Math_random rnd in
  let ss := <[i := r4 * 3 + 2]> (sizes this) in
  Some (mk (particleCount this) ps cs ss vs originals (uTime this), rnd).

(** [init()]: new buffers filled with zeros, then the loop. *)
Definition init (this : t) (rnd : Random.tape) : option (t * Random.tape) :=
  let positions := replicate (particleCount this * 3) 0 in
  let colors := replicate (particleCount this * 3) 0 in
  let sizes := replicate (particleCount this) 0 in
  forLoop init_body 0 (particleCount this)
    (mk (particleCount this) positions colors sizes (velocities this)
        (originalPositions this) 0,
     rnd).

(** [new ParticleSystem(count)] *)
Definition constructor (count : nat) (rnd : Random.tape)
    : option (t * Random.tape) :=
  init (mk count [] [] [] [] [] 0) rnd.

(** [v.set(0, 0, 0)] on [velocities[i]], which must exist. *)
Definition zero_velocity (i : nat) (this : t) : option t :=
  _ ← velocities this !! i;
  Some (set_velocities (<[i := Vector3.mk 0 0 0]> (velocities this)) this).

(** One round of the loop of [reset] (lines 458-467). *)
Definition reset_body (i : nat) (this : t) : option t :=
  let i3 := (i * 3)%nat in
  original ← originalPositions this !! i;
  let ps := <[i3 := Vector3.x original]> (positions this) in
  let ps := <[(i3 + 1)%nat := Vector3.y original]> ps in
  let ps := <[(i3 + 2)%nat := Vector3.z original]> ps in
  zero_velocity i (set_positions ps this).

(** [reset()] *)
Definition reset (this : t) : option t :=
  forLoop reset_body 0 (particleCount this) this.

(** [resetVelocities()]: the loop runs over the velocities that exist. *)
Definition resetVelocities (this : t) : option t :=
  forLoop zero_velocity 0 (length (velocities this)) this.




(** [getCount()] *)
Definition getCount (this : t) : nat := particleCount this.

End ParticleSystem.

(** ** AtomMode.js *)

Module AtomMode.
Import GestureDetector.

(** The fields of the mode that [update] reads and writes. *)
Record t : Type := mk {
  nucleusPosition : Vector3.t;
  orbitalLevels : list R;
  particleOrbits : list nat
}.

(** [new AtomMode()] *)
Definition constructor : t :=
  {| nucleusPosition := Vector3.mk 0 0 0;
     orbitalLevels := [2; 4; 6];
     particleOrbits := [] |}.

(** The relocation of the nucleus in [update] (lines 70-79). *)
Definition moveNucleus (this : t) (handPosition : option Vector3.t)
    (gesture : Gesture) : t :=
  match handPosition with
  | Some hand =>
    let worldPos := Physics.screenToWorld (Vector3.x hand) (Vector3.y hand) 0 in
    if GestureType_eqb (type gesture) PINCH then
      mk worldPos (orbitalLevels this) (particleOrbits this)
    else this
  | None => this
  end.

(** The part of the force that does not depend on the hand (lines
    92-101): the pull back to the orbit and the tangential force. *)
Definition baseForce (this : t) (position : Vector3.t) (orbitRadius : R)
    : Vector3.t :=
  let toCenter := Vector3.subVectors (nucleusPosition this) position in
  let dist := Num.or_else (Vector3.length toCenter) 0.0001 in
  let outwardDir :=
    Vector3.normalize (Vector3.sub (Vector3.clone position)
                                   (nucleusPosition this)) in
  let radialError := dist - orbitRadius in
  let force := Vector3.multiplyScalar outwardDir (- radialError * 0.45) in
  let orbitalForce :=
    Physics.orbitalForce position (nucleusPosition this) 0.8 in
  Vector3.add force orbitalForce.

(** The closure that [update] passes to [applyForce] (lines 89-126).  A
    particle without an orbit level has no radius to return to, and the
    closure fails. *)
Definition force (this : t) (handPosition : option Vector3.t)
    (gesture : Gesture) : ParticleSystem.forceFunction Random.tape :=
  fun position index rnd =>
    orbit ← particleOrbits this !! index;
    orbitRadius ← orbitalLevels this !! orbit;
    let force := baseForce this position orbitRadius in
    let '(force, rnd) :=
      match handPosition with
      | Some hand =>
        let worldPos :=
          Physics.screenToWorld (Vector3.x hand) (Vector3.y hand) 0 in
        if GestureType_eqb (type gesture) THUMB_UP then
          let '(repelForce, rnd) :=
            Physics.repulsionForce position worldPos 8.0 rnd in
          (Vector3.add force repelForce, rnd)
        else if GestureType_eqb (type gesture) PINCH then
          let attractForce := Physics.attractionForce position worldPos 10.0 in
          (Vector3.add force attractForce, rnd)
        else if GestureType_eqb (type gesture) PEACE then
          let orbitalBoost :=
            Physics.orbitalForce position (nucleusPosition this) 1.5 in
          (Vector3.add force orbitalBoost, rnd)
        else (force, rnd)
      | None => (force, rnd)
      end in
    let '(drift, rnd) := Physics.randomDrift 0.05 rnd in
    Some (Some (Vector3.add force drift), rnd).

(** The closure that [update] passes to [updateColors] (lines 129-141). *)
Definition color (this : t) (particleSystem : ParticleSystem.t) (index : nat)
    : option ParticleSystem.Color :=
  position ← ParticleSystem.getPosition particleSystem index;
  let distance := Vector3.distanceTo position (nucleusPosition this) in
  let brightness := 1.0 - Rmin (distance / 10) 1.0 in
  Some (ParticleSystem.mkColor (brightness * 0.3) brightness 1.0).

(** [update(particleSystem, handPosition, gesture, deltaTime, time)]; the
    changes to the nucleus mesh are not represented. *)
Definition update (this : t) (particleSystem : ParticleSystem.t)
    (handPosition : option Vector3.t) (gesture : Gesture)
    (deltaTime time : R) (rnd : Random.tape)
    : option (t * ParticleSystem.t * Random.tape) :=
  let this := moveNucleus this handPosition gesture in
  '(particleSystem, rnd) ←
    ParticleSystem.applyForce (force this handPosition gesture)
                              particleSystem rnd;
  particleSystem ←
    ParticleSystem.updateColors (color this particleSystem) particleSystem;
  Some (this, particleSystem, rnd).

End AtomMode.

(** ** FreeMode.js *)

Module FreeMode.
Import GestureDetector.

(** The world position of the hand in [update] (lines 204-207). *)
Definition handWorldPos (handPosition : option Vector3.t)
    : option Vector3.t :=
  match handPosition with
  | Some hand =>
    Some (Physics.screenToWorld (Vector3.x hand) (Vector3.y hand) 0)
  | None => None
  end.

(** The force that the hand adds (lines 239-267). *)
Definition handForce (handWorldPos : option Vector3.t) (gesture : Gesture)
    (position : Vector3.t) (rnd : Random.tape) : Vector3.t * Random.tape :=
  let force := Vector3.mk 0 0 0 in
  match handWorldPos with
  | Some handWorldPos =>
    if GestureType_eqb (type gesture) FULL_OPEN then
      Physics.repulsionForce position handWorldPos 10.0 rnd
    else if GestureType_eqb (type gesture) PINCH then
      (Physics.attractionForce position handWorldPos 15.0, rnd)
    else if GestureType_eqb (type gesture) PEACE then
      let toCenter := Vector3.subVectors handWorldPos position in
      let dist := Vector3.length toCenter in
      if Num.gtb dist 0.1 then
        let radial :=
          Vector3.multiplyScalar
            (Vector3.normalize (Vector3.clone toCenter)) 1.5 in
        let tangent :=
          Vector3.multiplyScalar
            (Vector3.normalize
               (Vector3.mk (- Vector3.y toCenter) (Vector3.x toCenter) 0))
            (5.0 / sqrt dist) in
        (Vector3.add radial tangent, rnd)
      else (force, rnd)
    else (force, rnd)
  | None => (force, rnd)
  end.

(** The closure that [update] passes to [applyForce] (lines 238-288);
    it never returns [null]. *)
Definition force (handWorldPos : option Vector3.t) (gesture : Gesture)
    : ParticleSystem.forceFunction Random.tape :=
  fun position index rnd =>
    let '(force, rnd) := handForce handWorldPos gesture position rnd in
    let boundaryRadius := 30 in
    let distFromCenter := Vector3.length position in
    let force :=
      if Num.gtb distFromCenter boundaryRadius then
        let boundaryForce :=
          Vector3.multiplyScalar
            (Vector3.normalize (Vector3.clone position))
            (- (distFromCenter - boundaryRadius) * 0.05) in
        Vector3.add force boundaryForce
      else force in
    let centerForce := Vector3.multiplyScalar (Vector3.clone position) (-0.005) in
    let force := Vector3.add force centerForce in
    let '(drift, rnd) := Physics.randomDrift 0.08 rnd in
    Some (Some (Vector3.add force drift), rnd).

(** The forces of one call of [update]; the marker of the force field and
    the colours are not represented. *)
Definition applyForces (particleSystem : ParticleSystem.t)
    (handPosition : option Vector3.t) (gesture : Gesture)
    (rnd : Random.tape) : option (ParticleSystem.t * Random.tape) :=
  ParticleSystem.applyForce (force (handWorldPos handPosition) gesture)
                            particleSystem rnd.

End FreeMode.

(** ** Sample data *)

Module Samples.
Import GestureDetector.

(** A landmark on the x axis. *)
Definition onAxis (a : R) : Landmark := mkLandmark a 0 (Some 0).

(** A synthetic hand, all on one line: thumb and index tips touch (pinch),
    index and middle fingers are stretched and apart, ring and little
    fingers are folded back (peace). *)
Definition pinchPeaceFrame : list Landmark :=
  map onAxis
    [ 0; 0.05; 0.1; 0.3; 0.5;
      0.2; 0.3; 0.4; 0.5;
      0.2; 0.3; 0.4; 0.6;
      0.2; 0.3; 0.4; 0.3;
      0.2; 0.3; 0.4; 0.3 ].

(** All 21 landmarks at one point, without depth. *)
Definition restFrame : list Landmark :=
  replicate 21 (mkLandmark 0 0 None).

(** A frame with too few landmarks. *)
Definition shortFrame : list Landmark :=
  replicate 20 (mkLandmark 0 0 None).


(** Two particles, the second one moving. *)
Definition twoParticles : ParticleSystem.t :=
  ParticleSystem.mk 2 [0; 0; 0; 1; 2; 3] [0; 0.6; 0.8; 0; 0.6; 0.8] [2; 3]
                    [Vector3.mk 0 0 0; Vector3.mk 1 0 (-2)]
                    [Vector3.mk 0 0 0; Vector3.mk 1 2 3] 0.

(** An atom mode with one particle on the innermost orbit. *)
Definition oneOrbit : AtomMode.t :=
  AtomMode.mk (Vector3.mk 0 0 0) [2; 4; 6] [0%nat].

(** A tape of draws that are all [0]. *)
Definition zeroTape : Random.tape := fun _ => 0.

(** A closed hand: every finger folded back, the thumb along the palm. *)
Definition fistFrame : list Landmark :=
  map onAxis
    [ 0; 0.05; 0.1; 0.1; 0.1;
      0.2; 0.3; 0.4; 0.3;
      0.2; 0.3; 0.4; 0.3;
      0.2; 0.3; 0.4; 0.3;
      0.2; 0.3; 0.4; 0.3 ].

(** An open hand: every finger and the thumb stretched, the index and
    middle tips together, the thumb tip away from them. *)
Definition openFrame : list Landmark :=
  map onAxis
    [ 0; 0.05; 0.1; 0.2; 0.3;
      0.2; 0.3; 0.4; 0.5;
      0.2; 0.3; 0.4; 0.5;
      0.3; 0.4; 0.5; 0.6;
      0.4; 0.5; 0.6; 0.7 ].

End Samples.

(** ** Notions used in the statements *)

Module Statements.
Import GestureDetector.

(** The detector [this] with the three fields that [detect] writes set
    to the given values. *)
Definition with_state (this : t) (last : GestureType) (count frames : nat)
    : t :=
  mk (PINCH_THRESHOLD this) (EXTENDED_ANGLE_THRESHOLD this)
     (CURL_ANGLE_THRESHOLD this) (PEACE_V_SPREAD_RATIO this)
     (PEACE_V_MIN_SPREAD this) (FULL_OPEN_SPREAD_THRESHOLD this)
     last count (STABLE_FRAMES this) (debugMode this) frames.

(** The frames are full landmark frames whose raw classifications are
    [a], [b], [a], [b], ... *)
Fixpoint alternating (this : t) (a b : GestureType)
    (frames : list (list Landmark)) : Prop :=
  match frames with
  | [] => True
  | f :: frames =>
    length f = 21%nat /\
    (exists c : R, rawGesture this f = Some (mkGesture a c)) /\
    alternating this b a frames
  end.




(** The two systems differ at most in the values of the velocities. *)
Definition same_but_velocities (a b : ParticleSystem.t) : Prop :=
  ParticleSystem.particleCount a = ParticleSystem.particleCount b /\
  ParticleSystem.positions a = ParticleSystem.positions b /\
  ParticleSystem.colors a = ParticleSystem.colors b /\
  ParticleSystem.sizes a = ParticleSystem.sizes b /\
  ParticleSystem.originalPositions a = ParticleSystem.originalPositions b /\
  ParticleSystem.uTime a = ParticleSystem.uTime b /\
  length (ParticleSystem.velocities a) = length (ParticleSystem.velocities b).


(** The position [p] after one step of integration with velocity [v]. *)
Definition moved (p v : Vector3.t) (deltaTime : R) : Vector3.t :=
  Vector3.mk (Vector3.x p + Vector3.x v * deltaTime * 2.0)
             (Vector3.y p + Vector3.y v * deltaTime * 2.0)
             (Vector3.z p + Vector3.z v * deltaTime * 2.0).

(** The state of the loop of [update] before round [i]: the particles
    below [i] have moved and slowed down, the others are untouched. *)
Definition update_invariant (deltaTime : R) (this : ParticleSystem.t)
    (i : nat) (s : ParticleSystem.t) : Prop :=
  ParticleSystem.particleCount s = ParticleSystem.particleCount this /\
  ParticleSystem.colors s = ParticleSystem.colors this /\
  ParticleSystem.sizes s = ParticleSystem.sizes this /\
  length (ParticleSystem.positions s)
    = length (ParticleSystem.positions this) /\
  length (ParticleSystem.velocities s)
    = length (ParticleSystem.velocities this) /\
  (forall k : nat,
     (i * 3 <= k)%nat ->
     ParticleSystem.positions s !! k = ParticleSystem.positions this !! k) /\
  (forall j : nat,
     (i <= j)%nat ->
     ParticleSystem.velocities s !! j = ParticleSystem.velocities this !! j) /\
  (forall (j : nat) (p v : Vector3.t),
     (j < i)%nat ->
     ParticleSystem.getPosition this j = Some p ->
     ParticleSystem.velocities this !! j = Some v ->
     ParticleSystem.getPosition s j = Some (moved p v deltaTime) /\
     ParticleSystem.velocities s !! j = Some (Physics.applyFriction v 0.95)).


(** [n] successive calls of [update] with the same arguments. *)
Fixpoint updates (n : nat) (deltaTime time : R) (this : ParticleSystem.t)
    : option ParticleSystem.t :=
  match n with
  | O => Some this
  | S n =>
    this ← ParticleSystem.update deltaTime time this;
    updates n deltaTime time this
  end.

End Statements.

(** * Properties *)

(** ** Numbers and vectors *)

Module NumFacts.
Import Num.

Lemma ltb_true (a b : R) : a < b -> ltb a b = true.
Proof. intros H. unfold ltb. destruct (Rlt_dec a b); [reflexivity | contradiction]. Qed.

Lemma ltb_false (a b : R) : b <= a -> ltb a b = false.
Proof. intros H. unfold ltb. destruct (Rlt_dec a b); [lra | reflexivity]. Qed.

Lemma ltb_spec (a b : R) : ltb a b = true <-> a < b.
Proof.
  unfold ltb. destruct (Rlt_dec a b); split; intros; try assumption;
    try reflexivity; try discriminate; contradiction.
Qed.

Lemma gtb_true (a b : R) : b < a -> gtb a b = true.
Proof. apply ltb_true. Qed.

Lemma gtb_false (a b : R) : a <= b -> gtb a b = false.
Proof. apply ltb_false. Qed.

Lemma eqb_true (a b : R) : a = b -> eqb a b = true.
Proof. intros H. unfold eqb. destruct (Req_dec_T a b); [reflexivity | contradiction]. Qed.

Lemma eqb_false (a b : R) : a <> b -> eqb a b = false.
Proof. intros H. unfold eqb. destruct (Req_dec_T a b); [contradiction | reflexivity]. Qed.

Lemma or_else_nonzero (a d : R) : a <> 0 -> or_else a d = a.
Proof. intros H. unfold or_else. now rewrite eqb_false. Qed.

Lemma or_else_zero (d : R) : or_else 0 d = d.
Proof. unfold or_else. now rewrite eqb_true. Qed.

Lemma sum_squares_nonneg (a b c : R) : 0 <= a * a + b * b + c * c.
Proof. nra. Qed.

Lemma sqrt_axis (a : R) : sqrt (a * a + 0 * 0 + 0 * 0) = Rabs a.
Proof.
  replace (a * a + 0 * 0 + 0 * 0) with (Rsqr a) by (unfold Rsqr; ring).
  apply sqrt_Rsqr_abs.
Qed.

End NumFacts.

(** ** The gesture detector *)

Module GestureFacts.
Import GestureDetector NumFacts.

Lemma at_index_is_Some (lm : list Landmark) (i : Z) :
  length lm = 21%nat -> (0 <= i < 21)%Z -> is_Some (at_index lm i).
Proof.
  intros Hlen Hi. unfold at_index.
  destruct (Z.ltb_spec i 0) as [Hneg | _]; [lia |].
  apply lookup_lt_is_Some. lia.
Qed.

(** The magnitudes of [getFingerCurlAngle] are the distances between the
    joints. *)
Lemma curl_angle_unfold (lm : list Landmark) (tipIndex : Z)
    (mcp pip dip : Landmark) :
  at_index lm (tipIndex - 3) = Some mcp ->
  at_index lm (tipIndex - 2) = Some pip ->
  at_index lm (tipIndex - 1) = Some dip ->
  getFingerCurlAngle lm tipIndex =
    let dot := (x mcp - x pip) * (x dip - x pip)
               + (y mcp - y pip) * (y dip - y pip)
               + (z_or_0 mcp - z_or_0 pip) * (z_or_0 dip - z_or_0 pip) in
    let mag1 := calculateDistance mcp pip in
    let mag2 := calculateDistance dip pip in
    if Num.eqb mag1 0 || Num.eqb mag2 0 then Some (Num.Num 180)
    else Some (Num.mul (Num.js_acos (Num.clamp (-1) 1
                          (Num.div dot (mag1 * mag2)))) (180 / PI)).
Proof.
  intros Hm Hp Hd. unfold getFingerCurlAngle.
  rewrite Hm, Hp, Hd. reflexivity.
Qed.

Lemma clamp_acos_degrees (q : R) :
  exists a : R,
    Num.mul (Num.js_acos (Num.clamp (-1) 1 (Num.Num q))) (180 / PI)
      = Num.Num a /\ 0 <= a <= 180.
Proof.
  set (c := Rmax (-1) (Rmin 1 q)).
  assert (Hc : -1 <= c <= 1).
  { unfold c. split; [apply Rmax_l |].
    apply Rmax_lub; [lra | apply Rmin_l]. }
  exists (acos c * (180 / PI)). split.
  - cbn. fold c. rewrite ltb_false by lra. rewrite ltb_false by lra.
    reflexivity.
  - pose proof (acos_bound c) as [Hlo Hhi]. pose proof PI_RGT_0 as Hpi.
    assert (Hk : 0 < 180 / PI) by (apply Rdiv_lt_0_compat; lra).
    split; [nra |].
    replace 180 with (PI * (180 / PI)) at 2 by (field; lra).
    apply Rmult_le_compat_r; lra.
Qed.

Lemma getFingerCurlAngle_cases (lm : list Landmark) (tipIndex : Z)
    (mcp pip dip : Landmark) :
  at_index lm (tipIndex - 3) = Some mcp ->
  at_index lm (tipIndex - 2) = Some pip ->
  at_index lm (tipIndex - 1) = Some dip ->
  exists a : R,
    getFingerCurlAngle lm tipIndex = Some (Num.Num a) /\ 0 <= a <= 180 /\
    (calculateDistance mcp pip = 0 \/ calculateDistance dip pip = 0 ->
     a = 180).
Proof.
  intros Hm Hp Hd. rewrite (curl_angle_unfold _ _ _ _ _ Hm Hp Hd). cbv zeta.
  destruct (Req_dec_T (calculateDistance mcp pip) 0) as [E1 | N1].
  { exists 180. rewrite (eqb_true _ _ E1). cbn. repeat split; lra. }
  destruct (Req_dec_T (calculateDistance dip pip) 0) as [E2 | N2].
  { exists 180. rewrite (eqb_true _ _ E2), orb_true_r. repeat split; lra. }
  rewrite (eqb_false _ _ N1), (eqb_false _ _ N2). cbn [orb].
  unfold Num.div. rewrite eqb_false by (apply Rmult_integral_contrapositive; auto).
  match goal with
  | |- context [Num.clamp _ _ (Num.Num ?q)] =>
      destruct (clamp_acos_degrees q) as (a & Ha & Hrange)
  end.
  exists a. rewrite Ha. split; [reflexivity |]. split; [exact Hrange |].
  intros [E | E]; contradiction.
Qed.

Lemma getFingerCurlAngle_is_Some (lm : list Landmark) (tipIndex : Z) :
  length lm = 21%nat -> (3 <= tipIndex <= 21)%Z ->
  exists a : R, getFingerCurlAngle lm tipIndex = Some (Num.Num a).
Proof.
  intros Hlen Hi.
  destruct (at_index_is_Some lm (tipIndex - 3) Hlen) as [mcp Hm]; [lia |].
  destruct (at_index_is_Some lm (tipIndex - 2) Hlen) as [pip Hp]; [lia |].
  destruct (at_index_is_Some lm (tipIndex - 1) Hlen) as [dip Hd]; [lia |].
  destruct (getFingerCurlAngle_cases lm tipIndex _ _ _ Hm Hp Hd)
    as (a & Ha & _).
  exists a. exact Ha.
Qed.

Lemma isFingerExtended_is_Some (this : t) (lm : list Landmark) (tipIndex : Z) :
  length lm = 21%nat -> (3 <= tipIndex <= 20)%Z ->
  is_Some (isFingerExtended this lm tipIndex).
Proof.
  intros Hlen Hi. unfold isFingerExtended.
  destruct (at_index_is_Some lm tipIndex Hlen) as [tip ->]; [lia |].
  destruct (at_index_is_Some lm (tipIndex - 1) Hlen) as [dip ->]; [lia |].
  destruct (at_index_is_Some lm (tipIndex - 3) Hlen) as [mcp ->]; [lia |].
  destruct (getFingerCurlAngle_is_Some lm tipIndex Hlen) as [a ->]; [lia |].
  cbn. eauto.
Qed.

Lemma isFingerCurled_is_Some (this : t) (lm : list Landmark) (tipIndex : Z) :
  length lm = 21%nat -> (3 <= tipIndex <= 20)%Z ->
  is_Some (isFingerCurled this lm tipIndex).
Proof.
  intros Hlen Hi. unfold isFingerCurled.
  destruct (at_index_is_Some lm tipIndex Hlen) as [tip ->]; [lia |].
  destruct (at_index_is_Some lm (tipIndex - 1) Hlen) as [dip ->]; [lia |].
  destruct (at_index_is_Some lm (tipIndex - 3) Hlen) as [mcp ->]; [lia |].
  destruct (getFingerCurlAngle_is_Some lm tipIndex Hlen) as [a ->]; [lia |].
  cbn. eauto.
Qed.

Lemma isThumbExtended_is_Some (lm : list Landmark) :
  length lm = 21%nat -> is_Some (isThumbExtended lm).
Proof.
  intros Hlen. unfold isThumbExtended.
  destruct (at_index_is_Some lm 4 Hlen) as [p4 ->]; [lia |].
  destruct (at_index_is_Some lm 2 Hlen) as [p2 ->]; [lia |].
  destruct (at_index_is_Some lm 0 Hlen) as [p0 ->]; [lia |].
  cbn. eauto.
Qed.

Lemma getPalmWidth_is_Some (lm : list Landmark) :
  length lm = 21%nat -> is_Some (getPalmWidth lm).
Proof.
  intros Hlen. unfold getPalmWidth.
  destruct (at_index_is_Some lm 5 Hlen) as [p5 ->]; [lia |].
  destruct (at_index_is_Some lm 17 Hlen) as [p17 ->]; [lia |].
  cbn. eauto.
Qed.

End GestureFacts.

(** ** The stability check *)

Module DebounceFacts.
Import GestureDetector NumFacts GestureFacts Statements.

Lemma GestureType_eqb_eq (a b : GestureType) :
  GestureType_eqb a b = true <-> a = b.
Proof. destruct a, b; cbn; split; intros H; congruence. Qed.

Lemma GestureType_eqb_neq (a b : GestureType) :
  GestureType_eqb a b = false <-> a <> b.
Proof. destruct a, b; cbn; split; intros H; congruence. Qed.

Lemma GestureType_eqb_refl (a : GestureType) : GestureType_eqb a a = true.
Proof. now destruct a. Qed.

Lemma with_state_id (this : t) :
  with_state this (lastGesture this) (gestureStableCount this)
             (frameCount this) = this.
Proof. now destruct this. Qed.

(** The stability check in closed form. *)
Lemma stabilize_spec (this : t) (raw : Gesture) :
  stabilize this raw =
    let count :=
      if GestureType_eqb (type raw) (lastGesture this)
      then S (gestureStableCount this) else 0%nat in
    (with_state this (type raw) count (frameCount this),
     if (STABLE_FRAMES this <=? count)%nat
     then mkGesture (type raw) (confidence raw) else mkGesture NONE 0).
Proof.
  unfold stabilize. destruct raw as [g c], this as [? ? ? ? ? ? last n sf dm fc].
  cbn [type confidence lastGesture gestureStableCount].
  destruct (GestureType_eqb g last) eqn:E.
  - apply GestureType_eqb_eq in E. subst last. cbn.
    destruct (sf <=? S n)%nat; reflexivity.
  - cbn. destruct (sf <=? 0)%nat; reflexivity.
Qed.

(** The raw classification reads the thresholds only. *)
Lemma rawGesture_with_state (this : t) (last : GestureType) (count frames : nat)
    (lm : list Landmark) :
  rawGesture (with_state this last count frames) lm = rawGesture this lm.
Proof. reflexivity. Qed.

(** [detect] on a full frame: the raw classification, then the stability
    check. *)
Lemma detect_frame (this : t) (lm : list Landmark) (raw : Gesture) :
  length lm = 21%nat ->
  rawGesture this lm = Some raw ->
  detect this (Some lm) =
    Some (stabilize (set_frameCount (S (frameCount this)) this) raw).
Proof.
  intros Hlen Hraw. unfold detect. rewrite Hlen. cbn [Nat.eqb negb].
  destruct (at_index_is_Some lm 4 Hlen) as [p4 ->]; [lia |].
  destruct (at_index_is_Some lm 8 Hlen) as [p8 ->]; [lia |].
  destruct (isFingerExtended_is_Some this lm 8 Hlen) as [f0 ->]; [lia |].
  destruct (isFingerExtended_is_Some this lm 12 Hlen) as [f1 ->]; [lia |].
  destruct (isFingerExtended_is_Some this lm 16 Hlen) as [f2 ->]; [lia |].
  destruct (isFingerExtended_is_Some this lm 20 Hlen) as [f3 ->]; [lia |].
  destruct (isThumbExtended_is_Some lm Hlen) as [th ->].
  destruct (getPalmWidth_is_Some lm Hlen) as [pw ->].
  cbn [mbind option_bind].
  change (rawGesture (set_frameCount (S (frameCount this)) this) lm)
    with (rawGesture this lm).
  rewrite Hraw. reflexivity.
Qed.

(** One frame, in closed form. *)
Lemma detect_step (this : t) (lm : list Landmark) (g : GestureType) (c : R) :
  length lm = 21%nat ->
  rawGesture this lm = Some (mkGesture g c) ->
  detect this (Some lm) =
    let count :=
      if GestureType_eqb g (lastGesture this)
      then S (gestureStableCount this) else 0%nat in
    Some (with_state this g count (S (frameCount this)),
          if (STABLE_FRAMES this <=? count)%nat
          then mkGesture g c else mkGesture NONE 0).
Proof.
  intros Hlen Hraw. rewrite (detect_frame this lm _ Hlen Hraw).
  rewrite stabilize_spec. destruct this; reflexivity.
Qed.

(** The raw classification of a gesture other than [NONE] comes with a
    confidence other than [0]. *)
Lemma rawGesture_confidence (this : t) (lm : list Landmark) (g : GestureType)
    (c : R) :
  rawGesture this lm = Some (mkGesture g c) -> g <> NONE -> c <> 0.
Proof.
  unfold rawGesture. intros H Hg.
  destruct (isPinch this lm) as [[|]|]; cbn [mbind option_bind] in H; [inversion H; lra | | discriminate].
  destruct (isPeaceSign this lm) as [[|]|]; cbn [mbind option_bind] in H; [inversion H; lra | | discriminate].
  destruct (isFullHandOpen this lm) as [[|]|]; cbn [mbind option_bind] in H; [inversion H; lra | | discriminate].
  inversion H; subst. contradiction.
Qed.

(** Repeating a frame whose raw classification is already the last
    gesture: the gesture is returned once the count reaches the
    threshold. *)
Lemma detectAll_repeat (this : t) (lm : list Landmark) (g : GestureType)
    (c : R) (d : nat) :
  forall (m fc : nat),
  length lm = 21%nat ->
  rawGesture this lm = Some (mkGesture g c) ->
  (m + S d = STABLE_FRAMES this)%nat ->
  detectAll (with_state this g m fc) (replicate (S d) (Some lm)) =
    Some (with_state this g (m + S d) (fc + S d),
          replicate d (mkGesture NONE 0) ++ [mkGesture g c]).
Proof.
  induction d as [| d IH]; intros m fc Hlen Hraw Hsum.
  - cbn [replicate detectAll].
    rewrite (detect_step _ lm g c Hlen) by (rewrite rawGesture_with_state; exact Hraw).
    cbn. rewrite GestureType_eqb_refl.
    replace (STABLE_FRAMES this <=? S m)%nat with true
      by (symmetry; apply Nat.leb_le; lia).
    replace (m + 1)%nat with (S m) by lia.
    replace (fc + 1)%nat with (S fc) by lia. reflexivity.
  - change (replicate (S (S d)) (Some lm))
      with (Some lm :: replicate (S d) (Some lm)).
    cbn [detectAll].
    rewrite (detect_step _ lm g c Hlen) by (rewrite rawGesture_with_state; exact Hraw).
    cbn -[detectAll replicate]. rewrite GestureType_eqb_refl.
    replace (STABLE_FRAMES this <=? S m)%nat with false
      by (symmetry; apply Nat.leb_gt; lia).
    change (with_state (with_state this g m fc) g (S m) (S fc))
      with (with_state this g (S m) (S fc)).
    rewrite (IH (S m) (S fc) Hlen Hraw) by lia.
    cbn. repeat f_equal; lia.
Qed.

End DebounceFacts.

(** ** The sample frames *)

Module SampleFacts.
Import GestureDetector NumFacts GestureFacts Statements Samples.

Ltac abs_lra := unfold Rabs; repeat destruct Rcase_abs; lra.

Lemma distance_onAxis (a b : R) :
  calculateDistance (onAxis a) (onAxis b) = Rabs (a - b).
Proof.
  unfold calculateDistance, onAxis, z_or_0. cbn [x y z].
  rewrite or_else_zero.
  replace ((0 - 0) * (0 - 0)) with (0 * 0) by ring.
  apply sqrt_axis.
Qed.

Lemma pinchPeaceFrame_length : length pinchPeaceFrame = 21%nat.
Proof. reflexivity. Qed.

Lemma restFrame_length : length restFrame = 21%nat.
Proof. reflexivity. Qed.

Lemma pinchPeace_thumb : isThumbExtended pinchPeaceFrame = Some true.
Proof.
  unfold isThumbExtended.
  change (at_index pinchPeaceFrame 4) with (Some (onAxis 0.5)).
  change (at_index pinchPeaceFrame 2) with (Some (onAxis 0.1)).
  change (at_index pinchPeaceFrame 0) with (Some (onAxis 0)).
  cbn [mbind option_bind]. rewrite !distance_onAxis.
  rewrite gtb_true by abs_lra. reflexivity.
Qed.

(** A finger of a frame on the axis is extended when its tip is far
    enough from the knuckle, whatever the curl angle. *)
Lemma onAxis_extended (this : t) (lm : list Landmark) (tipIndex : Z)
    (tip dip mcp : R) :
  length lm = 21%nat -> (3 <= tipIndex <= 20)%Z ->
  at_index lm tipIndex = Some (onAxis tip) ->
  at_index lm (tipIndex - 1) = Some (onAxis dip) ->
  at_index lm (tipIndex - 3) = Some (onAxis mcp) ->
  Rabs (dip - mcp) * 1.1 < Rabs (tip - mcp) ->
  isFingerExtended this lm tipIndex = Some true.
Proof.
  intros Hlen Hi Ht Hd Hm Hlt. unfold isFingerExtended.
  rewrite Ht, Hd, Hm.
  destruct (getFingerCurlAngle_is_Some lm tipIndex Hlen) as [a ->]; [lia |].
  cbn [mbind option_bind]. rewrite !distance_onAxis.
  rewrite gtb_true by exact Hlt. reflexivity.
Qed.

(** A finger of a frame on the axis is curled when its tip is close to
    the knuckle, whatever the curl angle. *)
Lemma onAxis_curled (this : t) (lm : list Landmark) (tipIndex : Z)
    (tip dip mcp : R) :
  length lm = 21%nat -> (3 <= tipIndex <= 20)%Z ->
  at_index lm tipIndex = Some (onAxis tip) ->
  at_index lm (tipIndex - 1) = Some (onAxis dip) ->
  at_index lm (tipIndex - 3) = Some (onAxis mcp) ->
  Rabs (tip - mcp) < Rabs (dip - mcp) * 1.05 ->
  isFingerCurled this lm tipIndex = Some true.
Proof.
  intros Hlen Hi Ht Hd Hm Hlt. unfold isFingerCurled.
  rewrite Ht, Hd, Hm.
  destruct (getFingerCurlAngle_is_Some lm tipIndex Hlen) as [a ->]; [lia |].
  cbn [mbind option_bind]. rewrite !distance_onAxis.
  rewrite ltb_true by exact Hlt. reflexivity.
Qed.

Lemma pinchPeace_index (this : t) :
  isFingerExtended this pinchPeaceFrame 8 = Some true.
Proof.
  apply (onAxis_extended this pinchPeaceFrame 8 0.5 0.4 0.2);
    [reflexivity | lia | reflexivity | reflexivity | reflexivity | abs_lra].
Qed.

Lemma pinchPeace_middle (this : t) :
  isFingerExtended this pinchPeaceFrame 12 = Some true.
Proof.
  apply (onAxis_extended this pinchPeaceFrame 12 0.6 0.4 0.2);
    [reflexivity | lia | reflexivity | reflexivity | reflexivity | abs_lra].
Qed.

Lemma pinchPeace_ring (this : t) :
  isFingerCurled this pinchPeaceFrame 16 = Some true.
Proof.
  apply (onAxis_curled this pinchPeaceFrame 16 0.3 0.4 0.2);
    [reflexivity | lia | reflexivity | reflexivity | reflexivity | abs_lra].
Qed.

Lemma pinchPeace_pinky (this : t) :
  isFingerCurled this pinchPeaceFrame 20 = Some true.
Proof.
  apply (onAxis_curled this pinchPeaceFrame 20 0.3 0.4 0.2);
    [reflexivity | lia | reflexivity | reflexivity | reflexivity | abs_lra].
Qed.

Lemma pinchPeace_isPinch : isPinch constructor pinchPeaceFrame = Some true.
Proof.
  unfold isPinch.
  change (at_index pinchPeaceFrame 4) with (Some (onAxis 0.5)).
  change (at_index pinchPeaceFrame 8) with (Some (onAxis 0.5)).
  rewrite pinchPeace_thumb, pinchPeace_index.
  cbn [mbind option_bind negb orb]. rewrite distance_onAxis.
  rewrite ltb_true; [reflexivity |].
  change (PINCH_THRESHOLD constructor) with 0.08. abs_lra.
Qed.

Lemma pinchPeace_isPeaceSign :
  isPeaceSign constructor pinchPeaceFrame = Some true.
Proof.
  unfold isPeaceSign, getPalmWidth.
  rewrite pinchPeace_index, pinchPeace_middle, pinchPeace_thumb,
    pinchPeace_ring, pinchPeace_pinky.
  change (at_index pinchPeaceFrame 8) with (Some (onAxis 0.5)).
  change (at_index pinchPeaceFrame 12) with (Some (onAxis 0.6)).
  change (at_index pinchPeaceFrame 5) with (Some (onAxis 0.2)).
  change (at_index pinchPeaceFrame 17) with (Some (onAxis 0.2)).
  cbn [mbind option_bind andb]. rewrite !distance_onAxis.
  rewrite gtb_true; [reflexivity |].
  change (PEACE_V_MIN_SPREAD constructor) with 0.025.
  change (PEACE_V_SPREAD_RATIO constructor) with 0.35.
  apply Rmax_lub_lt; abs_lra.
Qed.

Lemma pinchPeace_raw :
  rawGesture constructor pinchPeaceFrame = Some (mkGesture PINCH 0.9).
Proof. unfold rawGesture. rewrite pinchPeace_isPinch. reflexivity. Qed.

Lemma distance_rest :
  calculateDistance (mkLandmark 0 0 None) (mkLandmark 0 0 None) = 0.
Proof.
  unfold calculateDistance, z_or_0. cbn [x y z].
  replace ((0 - 0) * (0 - 0) + (0 - 0) * (0 - 0) + (0 - 0) * (0 - 0)) with 0
    by ring.
  apply sqrt_0.
Qed.

Lemma rest_at (i : Z) :
  (0 <= i < 21)%Z -> at_index restFrame i = Some (mkLandmark 0 0 None).
Proof.
  intros Hi. unfold at_index, restFrame.
  destruct (Z.ltb_spec i 0) as [Hneg | _]; [lia |].
  apply lookup_replicate_2. lia.
Qed.

Lemma rest_curl_angle (tipIndex : Z) :
  (3 <= tipIndex <= 20)%Z ->
  getFingerCurlAngle restFrame tipIndex = Some (Num.Num 180).
Proof.
  intros Hi.
  destruct (getFingerCurlAngle_cases restFrame tipIndex _ _ _
              (rest_at (tipIndex - 3) ltac:(lia))
              (rest_at (tipIndex - 2) ltac:(lia))
              (rest_at (tipIndex - 1) ltac:(lia)))
    as (a & Ha & _ & Hzero).
  rewrite Ha, Hzero; [reflexivity | left; apply distance_rest].
Qed.

Lemma rest_extended (tipIndex : Z) :
  (3 <= tipIndex <= 20)%Z ->
  isFingerExtended constructor restFrame tipIndex = Some true.
Proof.
  intros Hi. unfold isFingerExtended.
  rewrite !rest_at by lia. rewrite rest_curl_angle by lia.
  cbn [mbind option_bind Num.number_gtb]. rewrite distance_rest.
  change (EXTENDED_ANGLE_THRESHOLD constructor) with 165.
  rewrite (gtb_true 180 165) by lra. apply f_equal, orb_true_r.
Qed.

Lemma rest_curled (tipIndex : Z) :
  (3 <= tipIndex <= 20)%Z ->
  isFingerCurled constructor restFrame tipIndex = Some false.
Proof.
  intros Hi. unfold isFingerCurled.
  rewrite !rest_at by lia. rewrite rest_curl_angle by lia.
  cbn [mbind option_bind Num.number_ltb]. rewrite distance_rest.
  change (CURL_ANGLE_THRESHOLD constructor) with 150.
  rewrite (ltb_false 180 150) by lra. rewrite ltb_false by lra. reflexivity.
Qed.

Lemma rest_thumb : isThumbExtended restFrame = Some false.
Proof.
  unfold isThumbExtended. rewrite !rest_at by lia.
  cbn [mbind option_bind]. rewrite distance_rest.
  rewrite gtb_false by lra. reflexivity.
Qed.

Lemma rest_raw : rawGesture constructor restFrame = Some (mkGesture NONE 0).
Proof.
  unfold rawGesture, isPinch, isPeaceSign, isFullHandOpen, getPalmWidth.
  rewrite !rest_at by lia. rewrite !rest_extended by lia.
  rewrite !rest_curled by lia. rewrite rest_thumb.
  cbn [mbind option_bind negb orb andb forallb]. reflexivity.
Qed.

End SampleFacts.

(** ** Claims on the gesture detector *)

Module GestureClaims.
Import GestureDetector NumFacts GestureFacts Statements DebounceFacts.
Import Samples SampleFacts.

Lemma alternating_with_state (this : t) (l : GestureType) (m fc : nat)
    (frames : list (list Landmark)) :
  forall a b : GestureType,
  alternating this a b frames ->
  alternating (with_state this l m fc) a b frames.
Proof.
  induction frames as [| f frames IH]; intros a b H; [exact I |].
  destruct H as (Hlen & Hraw & Hrest). cbn [alternating].
  split; [exact Hlen |]. split; [| apply IH; exact Hrest].
  rewrite rawGesture_with_state. exact Hraw.
Qed.

Lemma alternating_take (this : t) (k : nat) :
  forall (frames : list (list Landmark)) (a b : GestureType),
  alternating this a b frames -> alternating this a b (take k frames).
Proof.
  induction k as [| k IH]; intros frames a b H.
  - rewrite take_0. exact I.
  - destruct frames as [| f frames]; [exact I |].
    destruct H as (Hlen & Hraw & Hrest). cbn [take alternating].
    repeat split; try assumption. apply IH. exact Hrest.
Qed.

(** While the raw classification changes at every frame, the count is
    reset at every frame but possibly the first, and nothing is
    returned. *)
Lemma alternating_run (this : t) (frames : list (list Landmark)) :
  forall (a b l : GestureType) (m fc : nat),
  a <> b ->
  (2 <= STABLE_FRAMES this)%nat ->
  m = 0%nat \/ ((m <= 1)%nat /\ l <> a) ->
  alternating this a b frames ->
  exists (l' : GestureType) (m' fc' : nat),
    detectAll (with_state this l m fc) (map Some frames) =
      Some (with_state this l' m' fc',
            replicate (length frames) (mkGesture NONE 0)) /\
    (m' <= 1)%nat.
Proof.
  induction frames as [| f frames IH]; intros a b l m fc Hab Hsf Hinv Halt.
  - exists l, m, fc. split; [reflexivity | lia].
  - destruct Halt as (Hlen & [c Hraw] & Hrest).
    cbn [map detectAll length replicate].
    rewrite (detect_step _ f a c Hlen)
      by (rewrite rawGesture_with_state; exact Hraw).
    cbv zeta. cbn [lastGesture gestureStableCount STABLE_FRAMES frameCount with_state].
    set (count := if GestureType_eqb a l then S m else 0%nat).
    assert (Hcount : (count <= 1)%nat).
    { unfold count. destruct (GestureType_eqb a l) eqn:E; [| lia].
      apply GestureType_eqb_eq in E. destruct Hinv as [-> | [_ Hl]]; [lia |].
      congruence. }
    replace (STABLE_FRAMES this <=? count)%nat with false
      by (symmetry; apply Nat.leb_gt; lia).
    destruct (IH b a a count (S fc)) as (l' & m' & fc' & Hrun & Hm');
      [congruence | exact Hsf | right; split; [exact Hcount | exact Hab]
      | exact Hrest |].
    exists l', m', fc'. split; [| exact Hm'].
    cbn [mbind option_bind].
    change (with_state (with_state this l m fc) a count (S fc))
      with (with_state this a count (S fc)).
    rewrite Hrun. reflexivity.
Qed.

(** C1 (amended): for a full frame whose raw classification is a gesture
    [G] other than NONE, and a detector whose last gesture is not [G],
    the first STABLE_FRAMES calls of [detect] on that frame return
    {NONE, 0}, and call number STABLE_FRAMES + 1 returns [G] with its
    confidence, which is not 0. *)
Theorem detect_emits_after_stable_frames (this : t) (lm : list Landmark)
    (G : GestureType) (c : R) :
  length lm = 21%nat ->
  rawGesture this lm = Some (mkGesture G c) ->
  G <> NONE ->
  lastGesture this <> G ->
  c <> 0 /\
  detectAll this (replicate (S (STABLE_FRAMES this)) (Some lm)) =
    Some (with_state this G (STABLE_FRAMES this)
                     (frameCount this + S (STABLE_FRAMES this)),
          replicate (STABLE_FRAMES this) (mkGesture NONE 0)
            ++ [mkGesture G c]).
Proof.
  intros Hlen Hraw HG Hlast.
  split; [exact (rawGesture_confidence this lm G c Hraw HG) |].
  change (replicate (S (STABLE_FRAMES this)) (Some lm))
    with (Some lm :: replicate (STABLE_FRAMES this) (Some lm)).
  cbn [detectAll]. rewrite (detect_step this lm G c Hlen Hraw). cbv zeta.
  replace (GestureType_eqb G (lastGesture this)) with false
    by (symmetry; apply GestureType_eqb_neq; congruence).
  cbn [mbind option_bind].
  destruct (STABLE_FRAMES this) as [| n] eqn:En.
  - cbn. repeat f_equal. lia.
  - cbn [Nat.leb].
    pose proof (detectAll_repeat this lm G c n 0 (S (frameCount this))
                  Hlen Hraw) as Hrun.
    rewrite En in Hrun. specialize (Hrun eq_refl).
    rewrite Hrun. cbn [mbind option_bind]. cbn [replicate app].
    replace (S (frameCount this) + S n)%nat with (frameCount this + S (S n))%nat
      by lia.
    reflexivity.
Qed.

Lemma detect_emits_after_stable_frames_witness :
  0.9 <> 0 /\
  detectAll constructor (replicate 3 (Some pinchPeaceFrame)) =
    Some (with_state constructor PINCH 2 3,
          [mkGesture NONE 0; mkGesture NONE 0; mkGesture PINCH 0.9]).
Proof.
  apply (detect_emits_after_stable_frames constructor pinchPeaceFrame PINCH 0.9).
  - reflexivity.
  - exact pinchPeace_raw.
  - discriminate.
  - discriminate.
Defined.

(** C1 as stated fails: on a new detector (last gesture NONE) the frame
    [pinchPeaceFrame], whose raw classification is PINCH, still gives
    {NONE, 0} at call number STABLE_FRAMES = 2. *)
Lemma detect_stable_frames_th_call_is_none :
  rawGesture constructor pinchPeaceFrame = Some (mkGesture PINCH 0.9) /\
  lastGesture constructor <> PINCH /\
  STABLE_FRAMES constructor = 2%nat /\
  exists (this' : t) (g1 g2 : Gesture),
    detectAll constructor [Some pinchPeaceFrame; Some pinchPeaceFrame] =
      Some (this', [g1; g2]) /\
    g2 = mkGesture NONE 0 /\ type g2 <> PINCH.
Proof.
  split; [exact pinchPeace_raw |]. split; [discriminate |].
  split; [reflexivity |].
  exists (with_state constructor PINCH 1 2), (mkGesture NONE 0),
    (mkGesture NONE 0).
  split; [| split; [reflexivity | discriminate]].
  cbn [detectAll].
  rewrite (detect_step constructor _ PINCH 0.9 pinchPeaceFrame_length
             pinchPeace_raw).
  cbv zeta. cbn [mbind option_bind].
  change (with_state constructor PINCH
            (if GestureType_eqb PINCH (lastGesture constructor)
             then S (gestureStableCount constructor) else 0%nat)
            (S (frameCount constructor)))
    with (with_state constructor PINCH 0 1).
  rewrite (detect_step (with_state constructor PINCH 0 1) _ PINCH 0.9
             pinchPeaceFrame_length pinchPeace_raw).
  reflexivity.
Qed.

(** C2 (amended): when the landmarks are missing, or are not 21, [detect]
    returns {NONE, 0} and leaves the detector as it was: neither the last
    gesture nor the stability count (nor the frame count) changes. *)
Theorem detect_malformed_frame (this : t)
    (landmarks : option (list Landmark)) :
  (landmarks = None \/
   exists lm : list Landmark, landmarks = Some lm /\ length lm <> 21%nat) ->
  detect this landmarks = Some (this, mkGesture NONE 0).
Proof.
  intros [-> | (lm & -> & Hlen)]; [reflexivity |].
  unfold detect.
  replace (length lm =? 21)%nat with false
    by (symmetry; apply Nat.eqb_neq; exact Hlen).
  reflexivity.
Qed.

Lemma detect_malformed_frame_witness :
  detect constructor (Some shortFrame) = Some (constructor, mkGesture NONE 0).
Proof.
  apply (detect_malformed_frame constructor (Some shortFrame)).
  right. exists shortFrame. split; [reflexivity | discriminate].
Defined.

(** C2 as stated fails: a frame whose raw classification is NONE
    ([restFrame]) moves the stability count of a new detector from 0 to
    1, a missing frame and a frame of 20 landmarks leave it at 0. *)
Lemma detect_malformed_frame_does_not_count :
  rawGesture constructor restFrame = Some (mkGesture NONE 0) /\
  (exists this' : t,
     detect constructor (Some restFrame) = Some (this', mkGesture NONE 0) /\
     gestureStableCount this' = 1%nat) /\
  (exists this' : t,
     detect constructor None = Some (this', mkGesture NONE 0) /\
     gestureStableCount this' = 0%nat) /\
  (exists this' : t,
     detect constructor (Some shortFrame) = Some (this', mkGesture NONE 0) /\
     gestureStableCount this' = 0%nat).
Proof.
  split; [exact rest_raw |]. split; [| split].
  - exists (with_state constructor NONE 1 1). split; [| reflexivity].
    rewrite (detect_step constructor _ NONE 0 restFrame_length rest_raw).
    reflexivity.
  - exists constructor. split; reflexivity.
  - exists constructor. split; reflexivity.
Qed.

(** C5: a frame of 21 landmarks for which the PINCH predicate and the
    PEACE predicate both hold is classified as PINCH (confidence 0.9) by
    [detect], before the stability check. *)
Theorem pinch_precedes_peace (this : t) (lm : list Landmark) :
  length lm = 21%nat ->
  isPinch this lm = Some true ->
  isPeaceSign this lm = Some true ->
  rawGesture this lm = Some (mkGesture PINCH 0.9) /\
  detect this (Some lm) =
    Some (stabilize (set_frameCount (S (frameCount this)) this)
                    (mkGesture PINCH 0.9)).
Proof.
  intros Hlen Hpinch Hpeace.
  assert (Hraw : rawGesture this lm = Some (mkGesture PINCH 0.9)).
  { unfold rawGesture. rewrite Hpinch. reflexivity. }
  split; [exact Hraw |]. exact (detect_frame this lm _ Hlen Hraw).
Qed.

Lemma pinch_precedes_peace_witness :
  rawGesture constructor pinchPeaceFrame = Some (mkGesture PINCH 0.9) /\
  detect constructor (Some pinchPeaceFrame) =
    Some (stabilize (set_frameCount 1 constructor) (mkGesture PINCH 0.9)).
Proof.
  apply (pinch_precedes_peace constructor pinchPeaceFrame).
  - reflexivity.
  - exact pinchPeace_isPinch.
  - exact pinchPeace_isPeaceSign.
Defined.

(** C8: from a detector whose stability count is 0 (a new one, or one
    that was reset), with STABLE_FRAMES at least 2, a sequence of full
    frames whose raw classification alternates between two different
    gestures only gets {NONE, 0} from [detect], and after every frame of
    it the stability count is below STABLE_FRAMES. *)
Theorem alternating_never_emits (this : t) (a b : GestureType)
    (frames : list (list Landmark)) (k : nat) :
  a <> b ->
  gestureStableCount this = 0%nat ->
  (2 <= STABLE_FRAMES this)%nat ->
  alternating this a b frames ->
  exists this' : t,
    detectAll this (map Some (take k frames)) =
      Some (this', replicate (length (take k frames)) (mkGesture NONE 0)) /\
    (gestureStableCount this' < STABLE_FRAMES this')%nat.
Proof.
  intros Hab Hcount Hsf Halt.
  destruct (alternating_run this (take k frames) a b (lastGesture this)
              (gestureStableCount this) (frameCount this) Hab Hsf)
    as (l' & m' & fc' & Hrun & Hm').
  - left. exact Hcount.
  - apply alternating_take. exact Halt.
  - rewrite with_state_id in Hrun.
    exists (with_state this l' m' fc'). split; [exact Hrun |].
    cbn [gestureStableCount STABLE_FRAMES with_state]. lia.
Qed.

Lemma alternating_never_emits_witness :
  exists this' : t,
    detectAll constructor
      (map Some (take 3 [pinchPeaceFrame; restFrame; pinchPeaceFrame;
                         restFrame])) =
      Some (this', replicate 3 (mkGesture NONE 0)) /\
    (gestureStableCount this' < STABLE_FRAMES this')%nat.
Proof.
  apply (alternating_never_emits constructor PINCH NONE
           [pinchPeaceFrame; restFrame; pinchPeaceFrame; restFrame] 3).
  - discriminate.
  - reflexivity.
  - cbn. lia.
  - cbn [alternating].
    repeat split; try reflexivity;
      try (exists 0.9; exact pinchPeace_raw);
      try (exists 0; exact rest_raw).
Defined.



End GestureClaims.

(** ** Vectors and forces *)

Module VectorFacts.
Import Vector3 NumFacts.



Lemma length_of_square (v : Vector3.t) (l : R) :
  0 <= l -> x v * x v + y v * y v + z v * z v = l * l -> length v = l.
Proof.
  intros Hl Hsq. unfold length. apply sqrt_lem_1.
  - apply sum_squares_nonneg.
  - exact Hl.
  - symmetry. exact Hsq.
Qed.





Lemma normalize_nonzero (v : Vector3.t) :
  length v <> 0 -> normalize v = multiplyScalar v (1 / length v).
Proof.
  intros H. unfold normalize, divideScalar. now rewrite or_else_nonzero.
Qed.




End VectorFacts.

Module PhysicsFacts.
Import Vector3 Physics Random NumFacts VectorFacts Statements.



Lemma repulsionForce_far (position target : Vector3.t) (strength : R)
    (rnd : tape) :
  0.1 <= length (subVectors position target) ->
  repulsionForce position target strength rnd =
    (multiplyScalar (normalize (subVectors position target))
       (strength / (length (subVectors position target) + 0.1)),
     rnd).
Proof.
  intros H. unfold repulsionForce. cbv zeta. now rewrite ltb_false.
Qed.







End PhysicsFacts.

(** ** The particle system *)

Module ParticleFacts.
Import ParticleSystem NumFacts VectorFacts Statements.

(** A loop whose body succeeds on every state that satisfies the
    invariant runs to its end. *)
Lemma forLoop_total {St : Type} (P : nat -> St -> Prop)
    (body : nat -> St -> option St) (n : nat) :
  forall (start : nat) (s : St),
  P start s ->
  (forall (i : nat) (s : St),
     (start <= i < start + n)%nat -> P i s ->
     exists s' : St, body i s = Some s' /\ P (S i) s') ->
  exists s' : St, forLoop body start n s = Some s' /\ P (start + n)%nat s'.
Proof.
  induction n as [| n IH]; intros start s HP Hstep.
  - exists s. split; [reflexivity |]. now rewrite Nat.add_0_r.
  - destruct (Hstep start s) as (s1 & Hb & HP1); [lia | exact HP |].
    destruct (IH (S start) s1 HP1) as (s2 & Hrun & HP2).
    { intros i s' Hi. apply Hstep. lia. }
    exists s2. split.
    + cbn [forLoop]. rewrite Hb. exact Hrun.
    + replace (start + S n)%nat with (S start + n)%nat by lia. exact HP2.
Qed.

(** What every round of the body preserves still holds after the loop. *)
Lemma forLoop_preserves {St : Type} (Q : St -> Prop)
    (body : nat -> St -> option St) (n : nat) :
  (forall (i : nat) (s s' : St), Q s -> body i s = Some s' -> Q s') ->
  forall (start : nat) (s s' : St),
  Q s -> forLoop body start n s = Some s' -> Q s'.
Proof.
  intros Hbody. induction n as [| n IH]; intros start s s' HQ Hrun.
  - cbn in Hrun. congruence.
  - cbn [forLoop] in Hrun. destruct (body start s) as [s1 |] eqn:Hb;
      [| discriminate].
    cbn [mbind option_bind] in Hrun.
    exact (IH _ _ _ (Hbody _ _ _ HQ Hb) Hrun).
Qed.

Lemma same_but_velocities_refl (a : ParticleSystem.t) :
  same_but_velocities a a.
Proof. repeat split. Qed.

Lemma same_but_velocities_insert (a b : ParticleSystem.t) (i : nat)
    (v : Vector3.t) :
  same_but_velocities a b ->
  same_but_velocities a (set_velocities (<[i := v]> (velocities b)) b).
Proof.
  intros (H1 & H2 & H3 & H4 & H5 & H6 & H7).
  repeat split; try assumption.
  cbn [velocities set_velocities]. now rewrite length_insert.
Qed.

Lemma applyForce_body_frame {E : Type} (f : forceFunction E)
    (this0 : ParticleSystem.t) (i : nat) (s s' : ParticleSystem.t * E) :
  same_but_velocities this0 (fst s) ->
  applyForce_body f i s = Some s' ->
  same_but_velocities this0 (fst s').
Proof.
  destruct s as [this env], s' as [this' env']. cbn [fst].
  intros Hsame H. unfold applyForce_body in H.
  destruct (positions this !! (i * 3)%nat) as [px |]; [| discriminate].
  destruct (positions this !! (i * 3 + 1)%nat) as [py |]; [| discriminate].
  destruct (positions this !! (i * 3 + 2)%nat) as [pz |]; [| discriminate].
  cbn [mbind option_bind] in H.
  destruct (f (Vector3.mk px py pz) i env) as [[[force |] env1] |];
    cbn [mbind option_bind] in H; [| | discriminate].
  - destruct (velocities this !! i) as [v |]; [| discriminate].
    cbn [mbind option_bind] in H. inversion H; subst.
    now apply same_but_velocities_insert.
  - inversion H; subst. exact Hsame.
Qed.

Lemma applyForce_frame_any {E : Type} (f : forceFunction E)
    (this this' : ParticleSystem.t) (env env' : E) :
  applyForce f this env = Some (this', env') ->
  same_but_velocities this this'.
Proof.
  unfold applyForce. intros H.
  apply (forLoop_preserves
           (fun s : ParticleSystem.t * E => same_but_velocities this (fst s))
           (applyForce_body f) (particleCount this)
           (fun i s s' => applyForce_body_frame f this i s s')
           0%nat (this, env) (this', env')); [| exact H].
  apply same_but_velocities_refl.
Qed.

Lemma well_formed_same (a b : ParticleSystem.t) :
  well_formed a -> same_but_velocities a b -> well_formed b.
Proof.
  intros (H1 & H2 & H3 & H4) (E1 & E2 & E3 & E4 & E5 & E6 & E7).
  unfold well_formed. rewrite <- E1, <- E2, <- E3, <- E4, <- E7. auto.
Qed.

(** On a well-formed system the loop of [applyForce] only fails when the
    force function does. *)
Lemma applyForce_total {E : Type} (f : forceFunction E)
    (this : ParticleSystem.t) (env : E) :
  well_formed this ->
  (forall (p : Vector3.t) (i : nat) (e : E), is_Some (f p i e)) ->
  is_Some (applyForce f this env).
Proof.
  intros Hwf Hf. unfold applyForce.
  destruct (forLoop_total
              (fun (_ : nat) (s : ParticleSystem.t * E) =>
                 same_but_velocities this (fst s))
              (applyForce_body f) (particleCount this) 0%nat (this, env))
    as (s' & Hrun & _).
  - apply same_but_velocities_refl.
  - intros i [this1 env1] Hi Hsame. cbn [fst] in Hsame.
    pose proof (well_formed_same _ _ Hwf Hsame) as (Hp & _ & _ & Hv).
    pose proof Hsame as (Hn & _).
    assert (Hx : is_Some (positions this1 !! (i * 3)%nat))
      by (apply lookup_lt_is_Some; lia).
    assert (Hy : is_Some (positions this1 !! (i * 3 + 1)%nat))
      by (apply lookup_lt_is_Some; lia).
    assert (Hz : is_Some (positions this1 !! (i * 3 + 2)%nat))
      by (apply lookup_lt_is_Some; lia).
    assert (Hvi : is_Some (velocities this1 !! i))
      by (apply lookup_lt_is_Some; lia).
    destruct Hx as [px Hx], Hy as [py Hy], Hz as [pz Hz], Hvi as [v Hvi].
    destruct (Hf (Vector3.mk px py pz) i env1) as [[force env2] Hforce].
    destruct (applyForce_body f i (this1, env1)) as [s1 |] eqn:Hb.
    + exists s1. split; [reflexivity |].
      exact (applyForce_body_frame f this i (this1, env1) s1 Hsame Hb).
    + exfalso. unfold applyForce_body in Hb.
      rewrite Hx, Hy, Hz in Hb. cbn [mbind option_bind] in Hb.
      rewrite Hforce in Hb. cbn [mbind option_bind] in Hb.
      destruct force; [rewrite Hvi in Hb |]; discriminate.
  - rewrite Hrun. eauto.
Qed.

Lemma getPosition_lookup (this : ParticleSystem.t) (j : nat) (p : Vector3.t) :
  getPosition this j = Some p <->
  positions this !! (j * 3)%nat = Some (Vector3.x p) /\
  positions this !! (j * 3 + 1)%nat = Some (Vector3.y p) /\
  positions this !! (j * 3 + 2)%nat = Some (Vector3.z p).
Proof.
  unfold getPosition. split.
  - intros H.
    destruct (positions this !! (j * 3)%nat) as [px |]; [| discriminate].
    destruct (positions this !! (j * 3 + 1)%nat) as [py |]; [| discriminate].
    destruct (positions this !! (j * 3 + 2)%nat) as [pz |]; [| discriminate].
    cbn [mbind option_bind] in H. inversion H; subst. auto.
  - intros (-> & -> & ->). destruct p. reflexivity.
Qed.

Lemma getPosition_is_Some (this : ParticleSystem.t) (j : nat) :
  well_formed this -> (j < particleCount this)%nat ->
  is_Some (getPosition this j).
Proof.
  intros (Hp & _) Hj.
  destruct (lookup_lt_is_Some_2 (positions this) (j * 3)) as [px Hx]; [lia |].
  destruct (lookup_lt_is_Some_2 (positions this) (j * 3 + 1)) as [py Hy];
    [lia |].
  destruct (lookup_lt_is_Some_2 (positions this) (j * 3 + 2)) as [pz Hz];
    [lia |].
  exists (Vector3.mk px py pz). apply getPosition_lookup. auto.
Qed.
















Lemma add_at_Some (buffer : list R) (i : nat) (old d : R) :
  buffer !! i = Some old ->
  add_at buffer i d = Some (<[i := old + d]> buffer).
Proof. intros H. unfold add_at. now rewrite H. Qed.

(** One round of the loop of [update], on a particle that exists. *)
Lemma update_body_spec (deltaTime : R) (i : nat) (this : ParticleSystem.t)
    (p v : Vector3.t) :
  getPosition this i = Some p ->
  velocities this !! i = Some v ->
  update_body deltaTime i this =
    Some (set_velocities
            (<[i := Physics.applyFriction v 0.95]> (velocities this))
            (set_positions
               (<[(i * 3 + 2)%nat := Vector3.z p + Vector3.z v * deltaTime * 2.0]>
                  (<[(i * 3 + 1)%nat := Vector3.y p + Vector3.y v * deltaTime * 2.0]>
                     (<[(i * 3)%nat := Vector3.x p + Vector3.x v * deltaTime * 2.0]>
                        (positions this))))
               this)).
Proof.
  intros Hp Hv. apply getPosition_lookup in Hp. destruct Hp as (Hx & Hy & Hz).
  unfold update_body. cbv zeta. rewrite Hv. cbn [mbind option_bind].
  rewrite (add_at_Some _ _ _ _ Hx). cbn [mbind option_bind].
  rewrite (add_at_Some _ _ (Vector3.y p)) by
    (rewrite list_lookup_insert_ne by lia; exact Hy).
  cbn [mbind option_bind].
  rewrite (add_at_Some _ _ (Vector3.z p)) by
    (rewrite !list_lookup_insert_ne by lia; exact Hz).
  cbn [mbind option_bind velocities set_positions]. rewrite Hv.
  reflexivity.
Qed.

Lemma update_invariant_step (deltaTime : R) (this : ParticleSystem.t)
    (i : nat) (s : ParticleSystem.t) :
  well_formed this ->
  (i < particleCount this)%nat ->
  update_invariant deltaTime this i s ->
  exists s' : ParticleSystem.t,
    update_body deltaTime i s = Some s' /\
    update_invariant deltaTime this (S i) s'.
Proof.
  intros Hwf Hi (Hn & Hc & Hs & Hlp & Hlv & Hpos & Hvel & Hdone).
  destruct (getPosition_is_Some this i Hwf Hi) as [p Hp].
  pose proof Hwf as (Hplen & _ & _ & Hvlen).
  destruct (lookup_lt_is_Some_2 (velocities this) i) as [v Hv]; [lia |].
  assert (Hp' : getPosition s i = Some p).
  { apply getPosition_lookup. apply getPosition_lookup in Hp.
    destruct Hp as (Hx & Hy & Hz).
    rewrite !Hpos by lia. auto. }
  assert (Hv' : velocities s !! i = Some v) by (rewrite Hvel by lia; exact Hv).
  eexists. split; [exact (update_body_spec deltaTime i s p v Hp' Hv') |].
  unfold update_invariant.
  cbn [particleCount colors sizes positions velocities set_velocities
       set_positions].
  rewrite !length_insert.
  repeat split; try assumption.
  - intros k Hk. rewrite !list_lookup_insert_ne by lia. apply Hpos. lia.
  - intros j Hj. rewrite list_lookup_insert_ne by lia. apply Hvel. lia.
  - destruct (decide (j = i)) as [-> | Hne].
    + apply getPosition_lookup.
      cbn [positions set_velocities set_positions moved
           Vector3.x Vector3.y Vector3.z].
      assert (p0 = p) by congruence. assert (v0 = v) by congruence. subst.
      repeat split.
      * rewrite !list_lookup_insert_ne by lia.
        apply list_lookup_insert_eq. lia.
      * rewrite list_lookup_insert_ne by lia.
        apply list_lookup_insert_eq. rewrite length_insert. lia.
      * apply list_lookup_insert_eq. rewrite !length_insert. lia.
    + destruct (Hdone j p0 v0 ltac:(lia) H0 H1) as [Hq _].
      apply getPosition_lookup. apply getPosition_lookup in Hq.
      cbn [positions set_velocities set_positions].
      rewrite !list_lookup_insert_ne by lia. exact Hq.
  - destruct (decide (j = i)) as [-> | Hne].
    + assert (v0 = v) by congruence. subst.
      apply list_lookup_insert_eq. lia.
    + rewrite list_lookup_insert_ne by lia.
      exact (proj2 (Hdone j p0 v0 ltac:(lia) H0 H1)).
Qed.

(** [update] in closed form. *)
Lemma update_spec (deltaTime time : R) (this : ParticleSystem.t) :
  well_formed this ->
  exists this' : ParticleSystem.t,
    update deltaTime time this = Some this' /\
    well_formed this' /\
    uTime this' = time /\
    update_invariant deltaTime this (particleCount this) this'.
Proof.
  intros Hwf. unfold update.
  destruct (forLoop_total (update_invariant deltaTime this)
              (update_body deltaTime) (particleCount this) 0%nat this)
    as (s & Hrun & Hinv).
  - unfold update_invariant. repeat split; try reflexivity; lia.
  - intros i s Hi Hinv. apply update_invariant_step; [exact Hwf | lia | exact Hinv].
  - rewrite Hrun. cbn [mbind option_bind].
    exists (set_uTime time s). split; [reflexivity |].
    cbn [Nat.add] in Hinv.
    destruct Hinv as (Hn & Hc & Hs & Hlp & Hlv & Hrest).
    destruct Hwf as (W1 & W2 & W3 & W4).
    split; [| split; [reflexivity |]].
    + unfold well_formed.
      cbn [particleCount positions colors sizes velocities set_uTime].
      rewrite Hn, Hc, Hs, Hlp, Hlv. auto.
    + unfold update_invariant.
      cbn [particleCount positions colors sizes velocities set_uTime].
      change (getPosition (set_uTime time s)) with (getPosition s).
      tauto.
Qed.

End ParticleFacts.

(** ** Claims on the particle system *)

Module ParticleClaims.
Import ParticleSystem NumFacts VectorFacts Statements ParticleFacts Samples.




Lemma twoParticles_well_formed : well_formed twoParticles.
Proof. repeat split. Qed.



(** C9: a call of [applyForce] that returns leaves the particle count,
    the positions, the colors and the sizes as they were and keeps the
    number of velocities; on a well-formed system it returns whenever
    the force function does. *)
Theorem applyForce_writes_velocities_only {E : Type} (f : forceFunction E)
    (this : ParticleSystem.t) (env : E) :
  (forall (this' : ParticleSystem.t) (env' : E),
     applyForce f this env = Some (this', env') ->
     particleCount this' = particleCount this /\
     positions this' = positions this /\
     colors this' = colors this /\
     sizes this' = sizes this /\
     length (velocities this') = length (velocities this)) /\
  (well_formed this ->
   (forall (p : Vector3.t) (i : nat) (e : E), is_Some (f p i e)) ->
   is_Some (applyForce f this env)).
Proof.
  split.
  - intros this' env' H.
    destruct (applyForce_frame_any f this this' env env' H)
      as (H1 & H2 & H3 & H4 & _ & _ & H7).
    repeat split; congruence.
  - apply applyForce_total.
Qed.

Lemma applyForce_writes_velocities_only_witness :
  exists this' : ParticleSystem.t,
    applyForce (pureForce (fun _ _ => Some (Vector3.mk 1 0 0)))
               twoParticles tt = Some (this', tt) /\
    positions this' = [0; 0; 0; 1; 2; 3] /\
    colors this' = [0; 0.6; 0.8; 0; 0.6; 0.8] /\
    sizes this' = [2; 3].
Proof.
  pose proof (applyForce_writes_velocities_only
                (pureForce (fun _ _ => Some (Vector3.mk 1 0 0)))
                twoParticles tt) as [Hframe Htotal].
  destruct Htotal as [[this' []] Hrun].
  - exact twoParticles_well_formed.
  - intros p i e. unfold pureForce. eauto.
  - exists this'. split; [exact Hrun |].
    destruct (Hframe this' tt Hrun) as (_ & Hp & Hc & Hs & _).
    rewrite Hp, Hc, Hs. repeat split.
Defined.



End ParticleClaims.

(** ** Claims on the atom mode *)

Module AtomClaims.
Import GestureDetector AtomMode NumFacts VectorFacts PhysicsFacts Samples.

(** C4 (amended): in the atom mode, with a hand position, the gesture
    THUMB_UP adds the repulsion force of strength 8.0 away from the
    hand's world position to the force of every particle; the gesture
    FULL_OPEN adds nothing, the force is the orbital force plus the
    random drift. *)
Theorem atom_repulsion_gesture (this : AtomMode.t) (hand : Vector3.t)
    (gesture : Gesture) (position : Vector3.t) (index orbit : nat)
    (orbitRadius : R) (rnd : Random.tape) :
  particleOrbits this !! index = Some orbit ->
  orbitalLevels this !! orbit = Some orbitRadius ->
  let worldPos :=
    Physics.screenToWorld (Vector3.x hand) (Vector3.y hand) 0 in
  let base := baseForce this position orbitRadius in
  (type gesture = THUMB_UP ->
   force this (Some hand) gesture position index rnd =
     let '(repelForce, rnd1) :=
       Physics.repulsionForce position worldPos 8.0 rnd in
     let '(drift, rnd2) := Physics.randomDrift 0.05 rnd1 in
     Some (Some (Vector3.add (Vector3.add base repelForce) drift), rnd2)) /\
  (type gesture = FULL_OPEN ->
   force this (Some hand) gesture position index rnd =
     let '(drift, rnd2) := Physics.randomDrift 0.05 rnd in
     Some (Some (Vector3.add base drift), rnd2)).
Proof.
  intros Horbit Hradius worldPos base. split; intros Htype.
  - unfold force. rewrite Horbit. cbn [mbind option_bind].
    rewrite Hradius. cbn [mbind option_bind]. rewrite Htype.
    cbn [GestureType_eqb]. fold worldPos. fold base.
    destruct (Physics.repulsionForce position worldPos 8.0 rnd)
      as [repelForce rnd1].
    reflexivity.
  - unfold force. rewrite Horbit. cbn [mbind option_bind].
    rewrite Hradius. cbn [mbind option_bind]. rewrite Htype.
    cbn [GestureType_eqb]. reflexivity.
Qed.

Lemma atom_repulsion_gesture_witness :
  force oneOrbit (Some (Vector3.mk 0.5 0.5 0)) (mkGesture THUMB_UP 0.9)
        (Vector3.mk 1 0 0) 0%nat zeroTape =
    let '(repelForce, rnd1) :=
      Physics.repulsionForce (Vector3.mk 1 0 0)
        (Physics.screenToWorld 0.5 0.5 0) 8.0 zeroTape in
    let '(drift, rnd2) := Physics.randomDrift 0.05 rnd1 in
    Some (Some (Vector3.add
                  (Vector3.add (baseForce oneOrbit (Vector3.mk 1 0 0) 2)
                               repelForce) drift), rnd2).
Proof.
  apply (atom_repulsion_gesture oneOrbit (Vector3.mk 0.5 0.5 0)
           (mkGesture THUMB_UP 0.9) (Vector3.mk 1 0 0) 0%nat 0%nat 2 zeroTape);
    reflexivity.
Defined.

(** C4 as stated fails: for the particle at (1, 0, 0) and the hand at
    the centre of the image, the repulsion of strength 8.0 is not zero,
    and the force under FULL_OPEN is the force without it. *)
Lemma atom_full_open_adds_nothing :
  exists (F repel : Vector3.t) (rnd' : Random.tape),
    force oneOrbit (Some (Vector3.mk 0.5 0.5 0)) (mkGesture FULL_OPEN 0.9)
          (Vector3.mk 1 0 0) 0%nat zeroTape = Some (Some F, rnd') /\
    force oneOrbit (Some (Vector3.mk 0.5 0.5 0)) (mkGesture NONE 0)
          (Vector3.mk 1 0 0) 0%nat zeroTape = Some (Some F, rnd') /\
    fst (Physics.repulsionForce (Vector3.mk 1 0 0)
           (Physics.screenToWorld 0.5 0.5 0) 8.0 zeroTape) = repel /\
    F <> Vector3.add
           (Vector3.add (baseForce oneOrbit (Vector3.mk 1 0 0) 2) repel)
           (fst (Physics.randomDrift 0.05 zeroTape)).
Proof.
  set (world := Physics.screenToWorld 0.5 0.5 0).
  assert (Hlen : Vector3.length (Vector3.subVectors (Vector3.mk 1 0 0) world)
                 = 1).
  { apply length_of_square; [lra |]. unfold world, Physics.screenToWorld.
    cbn [Vector3.subVectors Vector3.x Vector3.y Vector3.z]. lra. }
  assert (Hrep : fst (Physics.repulsionForce (Vector3.mk 1 0 0) world 8.0
                        zeroTape)
                 = Vector3.multiplyScalar
                     (Vector3.normalize
                        (Vector3.subVectors (Vector3.mk 1 0 0) world))
                     (8.0 / (1 + 0.1))).
  { rewrite repulsionForce_far by (rewrite Hlen; lra). cbn [fst].
    rewrite Hlen. reflexivity. }
  eexists _, _, _. split; [reflexivity |]. split; [reflexivity |].
  split; [exact Hrep |].
  intros E. apply (f_equal Vector3.x) in E.
  rewrite normalize_nonzero in E by (rewrite Hlen; lra). rewrite Hlen in E.
  unfold Vector3.add, Vector3.multiplyScalar in E.
  cbn [Vector3.x Vector3.y Vector3.z fst] in E.
  unfold world, Physics.screenToWorld in E.
  cbn [Vector3.subVectors Vector3.x Vector3.y Vector3.z] in E.
  set (bx := Vector3.x (baseForce oneOrbit (Vector3.mk 1 0 0) 2)) in E.
  unfold Physics.randomDrift, Random.Math_random in E.
  cbn [fst Vector3.x] in E.
  set (dx := (zeroTape 0%nat - 0.5) * 0.05) in E.
  lra.
Qed.

End AtomClaims.

(** ** More on the force helpers *)

Module PhysicsExtras.
Import Vector3 Physics Random NumFacts VectorFacts PhysicsFacts Statements.















End PhysicsExtras.

(** ** More on the gesture detector *)

Module GestureExtras.
Import GestureDetector NumFacts GestureFacts Statements DebounceFacts.
Import Samples SampleFacts.

Lemma isPinch_is_Some (this : t) (lm : list Landmark) :
  length lm = 21%nat -> is_Some (isPinch this lm).
Proof.
  intros Hlen. unfold isPinch.
  destruct (at_index_is_Some lm 4 Hlen) as [p4 ->]; [lia |].
  destruct (at_index_is_Some lm 8 Hlen) as [p8 ->]; [lia |].
  destruct (isThumbExtended_is_Some lm Hlen) as [th ->].
  destruct (isFingerExtended_is_Some this lm 8 Hlen) as [e8 ->]; [lia |].
  cbn [mbind option_bind]. destruct (negb th || negb e8); eauto.
Qed.

Lemma isPeaceSign_is_Some (this : t) (lm : list Landmark) :
  length lm = 21%nat -> is_Some (isPeaceSign this lm).
Proof.
  intros Hlen. unfold isPeaceSign.
  destruct (isFingerExtended_is_Some this lm 8 Hlen) as [e8 ->]; [lia |].
  destruct (isFingerExtended_is_Some this lm 12 Hlen) as [e12 ->]; [lia |].
  destruct (isThumbExtended_is_Some lm Hlen) as [th ->].
  destruct (isFingerCurled_is_Some this lm 16 Hlen) as [c16 ->]; [lia |].
  destruct (isFingerCurled_is_Some this lm 20 Hlen) as [c20 ->]; [lia |].
  destruct (at_index_is_Some lm 8 Hlen) as [p8 ->]; [lia |].
  destruct (at_index_is_Some lm 12 Hlen) as [p12 ->]; [lia |].
  destruct (getPalmWidth_is_Some lm Hlen) as [pw ->].
  cbn [mbind option_bind]. eauto.
Qed.

Lemma isFullHandOpen_is_Some (this : t) (lm : list Landmark) :
  length lm = 21%nat -> is_Some (isFullHandOpen this lm).
Proof.
  intros Hlen. unfold isFullHandOpen.
  destruct (isFingerExtended_is_Some this lm 8 Hlen) as [e8 ->]; [lia |].
  destruct (isFingerExtended_is_Some this lm 12 Hlen) as [e12 ->]; [lia |].
  destruct (isFingerExtended_is_Some this lm 16 Hlen) as [e16 ->]; [lia |].
  destruct (isFingerExtended_is_Some this lm 20 Hlen) as [e20 ->]; [lia |].
  destruct (isThumbExtended_is_Some lm Hlen) as [th ->].
  destruct (getPalmWidth_is_Some lm Hlen) as [pw ->].
  cbn [mbind option_bind]. eauto.
Qed.

(** The raw classification of a full frame is one of four results. *)
Lemma rawGesture_total (this : t) (lm : list Landmark) :
  length lm = 21%nat ->
  exists raw : Gesture,
    rawGesture this lm = Some raw /\
    (raw = mkGesture PINCH 0.9 \/ raw = mkGesture PEACE 0.85 \/
     raw = mkGesture FULL_OPEN 0.9 \/ raw = mkGesture NONE 0).
Proof.
  intros Hlen. unfold rawGesture.
  destruct (isPinch_is_Some this lm Hlen) as [[|] ->];
    cbn [mbind option_bind]; [eauto |].
  destruct (isPeaceSign_is_Some this lm Hlen) as [[|] ->];
    cbn [mbind option_bind]; [eauto |].
  destruct (isFullHandOpen_is_Some this lm Hlen) as [[|] ->];
    cbn [mbind option_bind]; eauto 6.
Qed.

(** [detect] returns on every input, missing, malformed or full.  The
    gesture it returns is never THUMB_UP, its confidence is 0 for NONE
    and 0.85 or 0.9 otherwise, and a gesture other than NONE is only
    returned when it is the last raw gesture and the count has reached
    STABLE_FRAMES.  The thresholds are never written. *)
Theorem detect_returns (this : t) (landmarks : option (list Landmark)) :
  exists (this' : t) (g : Gesture),
    detect this landmarks = Some (this', g) /\
    this' = with_state this (lastGesture this') (gestureStableCount this')
                       (frameCount this') /\
    type g <> THUMB_UP /\
    (type g = NONE -> confidence g = 0) /\
    (type g <> NONE ->
     (confidence g = 0.85 \/ confidence g = 0.9) /\
     lastGesture this' = type g /\
     (STABLE_FRAMES this' <= gestureStableCount this')%nat).
Proof.
  assert (Hnone : exists (this' : t) (g : Gesture),
            Some (this, mkGesture NONE 0) = Some (this', g) /\
            this' = with_state this (lastGesture this')
                      (gestureStableCount this') (frameCount this') /\
            type g <> THUMB_UP /\
            (type g = NONE -> confidence g = 0) /\
            (type g <> NONE ->
             (confidence g = 0.85 \/ confidence g = 0.9) /\
             lastGesture this' = type g /\
             (STABLE_FRAMES this' <= gestureStableCount this')%nat)).
  { exists this, (mkGesture NONE 0). split; [reflexivity |].
    split; [symmetry; apply with_state_id |].
    cbn [type confidence]. split; [discriminate |].
    split; [reflexivity |]. intros H. contradiction. }
  destruct landmarks as [lm |]; [| exact Hnone].
  destruct (Nat.eq_dec (length lm) 21%nat) as [Hlen | Hlen].
  - destruct (rawGesture_total this lm Hlen) as ([g c] & Hraw & Hcases).
    rewrite (detect_step this lm g c Hlen Hraw). cbv zeta.
    set (count := if GestureType_eqb g (lastGesture this)
                  then S (gestureStableCount this) else 0%nat).
    destruct (STABLE_FRAMES this <=? count)%nat eqn:Hle.
    + exists (with_state this g count (S (frameCount this))), (mkGesture g c).
      split; [reflexivity |]. split; [reflexivity |].
      cbn [type confidence lastGesture gestureStableCount STABLE_FRAMES
           with_state].
      apply Nat.leb_le in Hle.
      destruct Hcases as [E | [E | [E | E]]]; inversion E; subst;
        (split; [discriminate |]); (split; [try discriminate; reflexivity |]);
        intros Hne; try contradiction; repeat split; auto; lia.
    + exists (with_state this g count (S (frameCount this))),
        (mkGesture NONE 0).
      split; [reflexivity |]. split; [reflexivity |].
      cbn [type confidence]. split; [discriminate |].
      split; [reflexivity |]. intros H. contradiction.
  - unfold detect.
    replace (length lm =? 21)%nat with false
      by (symmetry; apply Nat.eqb_neq; exact Hlen).
    exact Hnone.
Qed.

(** [detectAll] on a concatenation. *)
Lemma detectAll_app (frames1 frames2 : list (option (list Landmark))) :
  forall (this this1 this2 : t) (out1 out2 : list Gesture),
  detectAll this frames1 = Some (this1, out1) ->
  detectAll this1 frames2 = Some (this2, out2) ->
  detectAll this (frames1 ++ frames2) = Some (this2, out1 ++ out2).
Proof.
  induction frames1 as [| f frames1 IH]; intros this this1 this2 out1 out2 H1 H2.
  - cbn in H1. inversion H1; subst. exact H2.
  - cbn [detectAll app] in H1 |- *.
    destruct (detect this f) as [[s g] |]; [| discriminate].
    cbn [mbind option_bind] in H1 |- *.
    destruct (detectAll s frames1) as [[s' gs] |] eqn:Hrest; [| discriminate].
    cbn [mbind option_bind] in H1. inversion H1; subst.
    rewrite (IH s this1 this2 gs out2 Hrest H2). reflexivity.
Qed.

(** Once the count has reached the threshold, every further frame with
    the same raw classification returns the gesture. *)
Lemma detectAll_sustained (this : t) (lm : list Landmark) (g : GestureType)
    (c : R) (k : nat) :
  forall (m fc : nat),
  length lm = 21%nat ->
  rawGesture this lm = Some (mkGesture g c) ->
  (STABLE_FRAMES this <= S m)%nat ->
  detectAll (with_state this g m fc) (replicate k (Some lm)) =
    Some (with_state this g (m + k) (fc + k), replicate k (mkGesture g c)).
Proof.
  induction k as [| k IH]; intros m fc Hlen Hraw Hm.
  - cbn [replicate detectAll]. rewrite !Nat.add_0_r. reflexivity.
  - cbn [replicate detectAll].
    rewrite (detect_step _ lm g c Hlen)
      by (rewrite rawGesture_with_state; exact Hraw).
    cbv zeta.
    cbn [lastGesture gestureStableCount STABLE_FRAMES frameCount with_state].
    rewrite GestureType_eqb_refl.
    replace (STABLE_FRAMES this <=? S m)%nat with true
      by (symmetry; apply Nat.leb_le; exact Hm).
    cbn [mbind option_bind].
    change (with_state (with_state this g m fc) g (S m) (S fc))
      with (with_state this g (S m) (S fc)).
    rewrite (IH (S m) (S fc) Hlen Hraw) by lia.
    cbn [mbind option_bind].
    replace (S m + k)%nat with (m + S k)%nat by lia.
    replace (S fc + k)%nat with (fc + S k)%nat by lia.
    reflexivity.
Qed.

(** A gesture that is held is returned for as long as it is held: of
    STABLE_FRAMES + 1 + j calls of [detect] on a frame classified [G],
    on a detector whose last gesture is not [G], the first STABLE_FRAMES
    return {NONE, 0} and all the others return [G]. *)
Theorem held_gesture_keeps_being_returned (this : t) (lm : list Landmark)
    (G : GestureType) (c : R) (j : nat) :
  length lm = 21%nat ->
  rawGesture this lm = Some (mkGesture G c) ->
  lastGesture this <> G ->
  detectAll this (replicate (S (STABLE_FRAMES this) + j) (Some lm)) =
    Some (with_state this G (STABLE_FRAMES this + j)
                     (frameCount this + S (STABLE_FRAMES this) + j),
          replicate (STABLE_FRAMES this) (mkGesture NONE 0)
            ++ replicate (S j) (mkGesture G c)).
Proof.
  intros Hlen Hraw Hlast.
  assert (Hfirst : detect this (Some lm) =
            Some (with_state this G 0 (S (frameCount this)),
                  if (STABLE_FRAMES this <=? 0)%nat
                  then mkGesture G c else mkGesture NONE 0)).
  { rewrite (detect_step this lm G c Hlen Hraw). cbv zeta.
    replace (GestureType_eqb G (lastGesture this)) with false
      by (symmetry; apply GestureType_eqb_neq; congruence).
    reflexivity. }
  destruct (STABLE_FRAMES this) as [| n] eqn:En.
  - change (replicate (1 + j) (Some lm))
      with (Some lm :: replicate j (Some lm)).
    cbn [detectAll]. rewrite Hfirst. cbn [mbind option_bind Nat.leb].
    rewrite (detectAll_sustained this lm G c j 0 (S (frameCount this))
               Hlen Hraw) by lia.
    cbn [mbind option_bind replicate app].
    replace (S (frameCount this) + j)%nat with (frameCount this + 1 + j)%nat
      by lia.
    reflexivity.
  - replace (S (S n) + j)%nat with (1 + (S n + j))%nat by lia.
    rewrite replicate_add.
    rewrite (detectAll_app _ _ this
               (with_state this G 0 (S (frameCount this)))
               (with_state this G (S n + j) (frameCount this + S (S n) + j))
               [mkGesture NONE 0]
               (replicate n (mkGesture NONE 0)
                  ++ replicate (S j) (mkGesture G c))).
    + reflexivity.
    + cbn [replicate detectAll]. rewrite Hfirst. reflexivity.
    + rewrite replicate_add.
      rewrite (detectAll_app _ _ _
                 (with_state this G (S n) (S (frameCount this) + S n))
                 (with_state this G (S n + j)
                    (frameCount this + S (S n) + j))
                 (replicate n (mkGesture NONE 0) ++ [mkGesture G c])
                 (replicate j (mkGesture G c))).
      * rewrite <- app_assoc. reflexivity.
      * pose proof (detectAll_repeat this lm G c n 0 (S (frameCount this))
                      Hlen Hraw) as Hrun.
        rewrite En in Hrun. exact (Hrun eq_refl).
      * rewrite (detectAll_sustained this lm G c j (S n)
                   (S (frameCount this) + S n) Hlen Hraw) by lia.
        replace (S (frameCount this) + S n + j)%nat
          with (frameCount this + S (S n) + j)%nat by lia.
        reflexivity.
Qed.

Lemma held_gesture_keeps_being_returned_witness :
  detectAll constructor (replicate (3 + 2) (Some pinchPeaceFrame)) =
    Some (with_state constructor PINCH 4 5,
          replicate 2 (mkGesture NONE 0)
            ++ replicate 3 (mkGesture PINCH 0.9)).
Proof.
  apply (held_gesture_keeps_being_returned constructor pinchPeaceFrame PINCH
           0.9 2).
  - reflexivity.
  - exact pinchPeace_raw.
  - discriminate.
Defined.

Lemma detect_skips (this : t) (bad : option (list Landmark)) :
  (bad = None \/
   exists lm : list Landmark, bad = Some lm /\ length lm <> 21%nat) ->
  detect this bad = Some (this, mkGesture NONE 0).
Proof.
  intros [-> | (lm & -> & Hlen)]; [reflexivity |]. unfold detect.
  replace (length lm =? 21)%nat with false
    by (symmetry; apply Nat.eqb_neq; exact Hlen).
  reflexivity.
Qed.

(** A missing or malformed frame in the middle of a sequence gets
    {NONE, 0} and changes nothing else: the other frames get what they
    get without it, and the detector ends in the same state, so such a
    frame does not interrupt a gesture that is being held. *)
Theorem malformed_frames_are_skipped (this this1 this2 : t)
    (frames1 frames2 : list (option (list Landmark)))
    (bad : option (list Landmark)) (out1 out2 : list Gesture) :
  (bad = None \/
   exists lm : list Landmark, bad = Some lm /\ length lm <> 21%nat) ->
  detectAll this frames1 = Some (this1, out1) ->
  detectAll this1 frames2 = Some (this2, out2) ->
  detectAll this (frames1 ++ frames2) = Some (this2, out1 ++ out2) /\
  detectAll this (frames1 ++ bad :: frames2) =
    Some (this2, out1 ++ mkGesture NONE 0 :: out2).
Proof.
  intros Hbad H1 H2. split.
  - exact (detectAll_app _ _ _ _ _ _ _ H1 H2).
  - apply (detectAll_app _ _ _ this1 _ _ _ H1).
    cbn [detectAll]. rewrite (detect_skips this1 bad Hbad).
    cbn [mbind option_bind]. rewrite H2. reflexivity.
Qed.

Lemma malformed_frames_are_skipped_witness :
  detectAll constructor
    ([Some pinchPeaceFrame] ++ [Some pinchPeaceFrame; Some pinchPeaceFrame])
    = Some (with_state constructor PINCH 2 3,
            [mkGesture NONE 0] ++ [mkGesture NONE 0; mkGesture PINCH 0.9]) /\
  detectAll constructor
    ([Some pinchPeaceFrame]
       ++ None :: [Some pinchPeaceFrame; Some pinchPeaceFrame])
    = Some (with_state constructor PINCH 2 3,
            [mkGesture NONE 0]
              ++ mkGesture NONE 0 :: [mkGesture NONE 0; mkGesture PINCH 0.9]).
Proof.
  apply (malformed_frames_are_skipped constructor
           (with_state constructor PINCH 0 1)).
  - left. reflexivity.
  - cbn [detectAll].
    rewrite (detect_step constructor _ PINCH 0.9 pinchPeaceFrame_length
               pinchPeace_raw).
    reflexivity.
  - exact (detectAll_repeat constructor pinchPeaceFrame PINCH 0.9 1 0 1
             pinchPeaceFrame_length pinchPeace_raw eq_refl).
Defined.

(** The frame count has no influence on what [detect] returns. *)
Lemma detect_frameCount (this : t) (l : GestureType) (m fc fc' : nat)
    (f : option (list Landmark)) :
  exists (l' : GestureType) (m' k : nat) (g : Gesture),
    detect (with_state this l m fc) f
      = Some (with_state this l' m' (fc + k), g) /\
    detect (with_state this l m fc') f
      = Some (with_state this l' m' (fc' + k), g).
Proof.
  assert (Hskip : forall bad : option (list Landmark),
            detect (with_state this l m fc) bad
              = Some (with_state this l m fc, mkGesture NONE 0) ->
            detect (with_state this l m fc') bad
              = Some (with_state this l m fc', mkGesture NONE 0) ->
            exists (l' : GestureType) (m' k : nat) (g : Gesture),
              detect (with_state this l m fc) bad
                = Some (with_state this l' m' (fc + k), g) /\
              detect (with_state this l m fc') bad
                = Some (with_state this l' m' (fc' + k), g)).
  { intros bad E1 E2. exists l, m, 0%nat, (mkGesture NONE 0).
    rewrite !Nat.add_0_r. auto. }
  destruct f as [lm |]; [| apply Hskip; reflexivity].
  destruct (Nat.eq_dec (length lm) 21%nat) as [Hlen | Hlen].
  - destruct (rawGesture_total this lm Hlen) as ([g c] & Hraw & _).
    exists g, (if GestureType_eqb g l then S m else 0%nat), 1%nat,
      (if (STABLE_FRAMES this <=? (if GestureType_eqb g l then S m else 0))%nat
       then mkGesture g c else mkGesture NONE 0).
    rewrite !(detect_step _ lm g c Hlen)
      by (rewrite rawGesture_with_state; exact Hraw).
    cbv zeta.
    cbn [lastGesture gestureStableCount STABLE_FRAMES frameCount with_state].
    replace (fc + 1)%nat with (S fc) by lia.
    replace (fc' + 1)%nat with (S fc') by lia.
    split; reflexivity.
  - apply Hskip; apply detect_skips; right; exists lm; auto.
Qed.

Lemma detectAll_frameCount (this : t)
    (frames : list (option (list Landmark))) :
  forall (l : GestureType) (m fc fc' : nat),
  snd <$> detectAll (with_state this l m fc) frames =
  snd <$> detectAll (with_state this l m fc') frames.
Proof.
  induction frames as [| f frames IH]; intros l m fc fc'; [reflexivity |].
  cbn [detectAll].
  destruct (detect_frameCount this l m fc fc' f)
    as (l' & m' & k & g & -> & ->).
  cbn [mbind option_bind].
  specialize (IH l' m' (fc + k)%nat (fc' + k)%nat).
  destruct (detectAll (with_state this l' m' (fc + k)) frames)
    as [[s1 gs1] |],
    (detectAll (with_state this l' m' (fc' + k)) frames) as [[s2 gs2] |];
    cbn in IH |- *; congruence.
Qed.

(** After [reset], a detector that was built by [new GestureDetector()]
    returns on every sequence of frames what a new detector returns,
    whatever it has seen before. *)
Theorem reset_behaves_like_new (l : GestureType) (m fc : nat)
    (frames : list (option (list Landmark))) :
  snd <$> detectAll (reset (with_state constructor l m fc)) frames =
  snd <$> detectAll constructor frames.
Proof.
  change (reset (with_state constructor l m fc))
    with (with_state constructor NONE 0 fc).
  change constructor with (with_state constructor NONE 0 0) at 2.
  apply detectAll_frameCount.
Qed.

Lemma isThumbExtended_wrist (lm : list Landmark) (b : bool) :
  isThumbExtended lm = Some b ->
  is_Some (at_index lm 0) /\ is_Some (at_index lm 4).
Proof.
  unfold isThumbExtended. intros H.
  destruct (at_index lm 4) as [p4 |]; [| discriminate].
  destruct (at_index lm 2) as [p2 |]; [| discriminate].
  destruct (at_index lm 0) as [p0 |]; [| discriminate].
  split; eauto.
Qed.

(** A closed fist is never a thumbs-up: [isFist] asks for a thumb that is
    not extended, [isThumbsUp] for one that is. *)
Theorem fist_is_not_thumbs_up (this : t) (lm : list Landmark) :
  isFist this lm = Some true -> isThumbsUp this lm = Some false.
Proof.
  unfold isFist, isThumbsUp. intros H.
  destruct (isFingerCurled this lm 8) as [c8 |]; [| discriminate].
  destruct (isFingerCurled this lm 12) as [c12 |]; [| discriminate].
  destruct (isFingerCurled this lm 16) as [c16 |]; [| discriminate].
  destruct (isFingerCurled this lm 20) as [c20 |]; [| discriminate].
  cbn [mbind option_bind] in H.
  destruct (isThumbExtended lm) as [th |] eqn:Hth; [| discriminate].
  destruct (isThumbExtended_wrist lm th Hth) as [[p0 ->] [p4 H4]].
  rewrite H4 in H |- *. cbn [mbind option_bind] in H |- *.
  destruct (at_index lm 8) as [p8 |]; [| discriminate].
  cbn [mbind option_bind] in H. injection H as Hb.
  apply andb_prop in Hb. destruct Hb as [_ Hthumb].
  destruct th; [discriminate |]. reflexivity.
Qed.

Lemma fistFrame_length : length fistFrame = 21%nat.
Proof. reflexivity. Qed.

Lemma fist_thumb : isThumbExtended fistFrame = Some false.
Proof.
  unfold isThumbExtended.
  change (at_index fistFrame 4) with (Some (onAxis 0.1)).
  change (at_index fistFrame 2) with (Some (onAxis 0.1)).
  change (at_index fistFrame 0) with (Some (onAxis 0)).
  cbn [mbind option_bind]. rewrite !distance_onAxis.
  rewrite gtb_false by abs_lra. reflexivity.
Qed.

Lemma fist_curled (tipIndex : Z) :
  In tipIndex [8; 12; 16; 20]%Z ->
  isFingerCurled constructor fistFrame tipIndex = Some true.
Proof.
  intros H. cbn [In] in H.
  destruct H as [<- | [<- | [<- | [<- | []]]]];
    apply (onAxis_curled constructor fistFrame _ 0.3 0.4 0.2);
    try reflexivity; try lia; abs_lra.
Qed.

Lemma fist_isFist : isFist constructor fistFrame = Some true.
Proof.
  unfold isFist.
  rewrite !fist_curled by (cbn [In]; auto). rewrite fist_thumb.
  change (at_index fistFrame 4) with (Some (onAxis 0.1)).
  change (at_index fistFrame 8) with (Some (onAxis 0.3)).
  reflexivity.
Qed.

Lemma fist_is_not_thumbs_up_witness :
  isThumbsUp constructor fistFrame = Some false.
Proof.
  apply (fist_is_not_thumbs_up constructor fistFrame). exact fist_isFist.
Defined.

(** The five-finger gesture asks for more than the open palm: whenever
    [isFullHandOpen] holds, [isOpenPalm] holds, the thumb is extended and
    the palm is wider than the spread threshold. *)
Theorem full_hand_open_is_open_palm (this : t) (lm : list Landmark) :
  isFullHandOpen this lm = Some true ->
  isOpenPalm this lm = Some true /\
  isThumbExtended lm = Some true /\
  exists w : R,
    getPalmWidth lm = Some w /\ FULL_OPEN_SPREAD_THRESHOLD this < w.
Proof.
  unfold isFullHandOpen, isOpenPalm. intros H.
  destruct (isFingerExtended this lm 8) as [e8 |]; [| discriminate].
  destruct (isFingerExtended this lm 12) as [e12 |]; [| discriminate].
  destruct (isFingerExtended this lm 16) as [e16 |]; [| discriminate].
  destruct (isFingerExtended this lm 20) as [e20 |]; [| discriminate].
  cbn [mbind option_bind] in H |- *.
  destruct (isThumbExtended lm) as [th |]; [| discriminate].
  destruct (getPalmWidth lm) as [w |]; [| discriminate].
  cbn [mbind option_bind] in H. injection H as Hb.
  apply andb_prop in Hb. destruct Hb as [Hb Hw].
  apply andb_prop in Hb. destruct Hb as [Hf Hth].
  destruct e8, e12, e16, e20; try discriminate. subst th.
  split; [reflexivity |]. split; [reflexivity |].
  exists w. split; [reflexivity |]. apply ltb_spec. exact Hw.
Qed.

Lemma openFrame_length : length openFrame = 21%nat.
Proof. reflexivity. Qed.

Lemma open_thumb : isThumbExtended openFrame = Some true.
Proof.
  unfold isThumbExtended.
  change (at_index openFrame 4) with (Some (onAxis 0.3)).
  change (at_index openFrame 2) with (Some (onAxis 0.1)).
  change (at_index openFrame 0) with (Some (onAxis 0)).
  cbn [mbind option_bind]. rewrite !distance_onAxis.
  rewrite gtb_true by abs_lra. reflexivity.
Qed.

Lemma open_extended (this : t) (tipIndex : Z) :
  In tipIndex [8; 12; 16; 20]%Z ->
  isFingerExtended this openFrame tipIndex = Some true.
Proof.
  intros H. cbn [In] in H. destruct H as [<- | [<- | [<- | [<- | []]]]].
  - apply (onAxis_extended this openFrame 8 0.5 0.4 0.2);
      try reflexivity; try lia; abs_lra.
  - apply (onAxis_extended this openFrame 12 0.5 0.4 0.2);
      try reflexivity; try lia; abs_lra.
  - apply (onAxis_extended this openFrame 16 0.6 0.5 0.3);
      try reflexivity; try lia; abs_lra.
  - apply (onAxis_extended this openFrame 20 0.7 0.6 0.4);
      try reflexivity; try lia; abs_lra.
Qed.

Lemma open_isFullHandOpen : isFullHandOpen constructor openFrame = Some true.
Proof.
  unfold isFullHandOpen, getPalmWidth.
  rewrite !open_extended by (cbn [In]; auto). rewrite open_thumb.
  change (at_index openFrame 5) with (Some (onAxis 0.2)).
  change (at_index openFrame 17) with (Some (onAxis 0.4)).
  cbn [mbind option_bind forallb andb]. rewrite distance_onAxis.
  rewrite gtb_true; [reflexivity |].
  change (FULL_OPEN_SPREAD_THRESHOLD constructor) with 0.15. abs_lra.
Qed.

Lemma full_hand_open_is_open_palm_witness :
  isOpenPalm constructor openFrame = Some true /\
  isThumbExtended openFrame = Some true /\
  exists w : R,
    getPalmWidth openFrame = Some w /\
    FULL_OPEN_SPREAD_THRESHOLD constructor < w.
Proof.
  apply (full_hand_open_is_open_palm constructor openFrame).
  exact open_isFullHandOpen.
Defined.




(** The palm centre of a frame of 21 landmarks that lie in the image
    (x and y between 0 and 1) lies in the image, and [screenToWorld]
    takes it to a point with |x| <= 20, |y| <= 15 and the given depth. *)
Theorem palm_center_in_view (lm : list Landmark) :
  length lm = 21%nat ->
  Forall (fun p : Landmark => 0 <= x p <= 1 /\ 0 <= y p <= 1) lm ->
  exists c : PalmCenter,
    getPalmCenter lm = Some c /\
    0 <= cx c <= 1 /\ 0 <= cy c <= 1 /\
    -20 <= Vector3.x (Physics.screenToWorld (cx c) (cy c) 0) <= 20 /\
    -15 <= Vector3.y (Physics.screenToWorld (cx c) (cy c) 0) <= 15 /\
    Vector3.z (Physics.screenToWorld (cx c) (cy c) 0) = 0.
Proof.
  intros Hlen Hall.
  assert (Hin : forall (i : Z) (p : Landmark),
            at_index lm i = Some p -> 0 <= x p <= 1 /\ 0 <= y p <= 1).
  { intros i p Hp. unfold at_index in Hp.
    destruct (i <? 0)%Z; [discriminate |].
    exact (proj1 (Forall_lookup _ lm) Hall _ _ Hp). }
  unfold getPalmCenter.
  destruct (at_index_is_Some lm 0 Hlen) as [p0 H0]; [lia |].
  destruct (at_index_is_Some lm 5 Hlen) as [p5 H5]; [lia |].
  destruct (at_index_is_Some lm 17 Hlen) as [p17 H17]; [lia |].
  rewrite H0, H5, H17. cbn [mbind option_bind].
  destruct (Hin _ _ H0) as [? ?], (Hin _ _ H5) as [? ?],
    (Hin _ _ H17) as [? ?].
  eexists. split; [reflexivity |].
  unfold Physics.screenToWorld.
  cbn [cx cy Vector3.x Vector3.y Vector3.z].
  repeat split; lra.
Qed.

Lemma palm_center_in_view_witness :
  exists c : PalmCenter,
    getPalmCenter pinchPeaceFrame = Some c /\
    0 <= cx c <= 1 /\ 0 <= cy c <= 1 /\
    -20 <= Vector3.x (Physics.screenToWorld (cx c) (cy c) 0) <= 20 /\
    -15 <= Vector3.y (Physics.screenToWorld (cx c) (cy c) 0) <= 15 /\
    Vector3.z (Physics.screenToWorld (cx c) (cy c) 0) = 0.
Proof.
  apply (palm_center_in_view pinchPeaceFrame); [reflexivity |].
  unfold pinchPeaceFrame, onAxis. cbn [map].
  repeat (apply Forall_cons; split; [cbn [x y]; lra |]).
  apply Forall_nil. exact I.
Defined.




End GestureExtras.

(** ** More on the particle system *)

Module ParticleExtras.
Import ParticleSystem NumFacts VectorFacts Statements ParticleFacts Samples.










(** [zero_velocity] keeps everything but one velocity. *)
Lemma zero_velocity_spec (i : nat) (this : ParticleSystem.t) :
  (i < length (velocities this))%nat ->
  zero_velocity i this =
    Some (set_velocities (<[i := Vector3.mk 0 0 0]> (velocities this)) this).
Proof.
  intros Hi. unfold zero_velocity.
  destruct (lookup_lt_is_Some_2 (velocities this) i Hi) as [v ->].
  reflexivity.
Qed.

(** [resetVelocities] returns on every system, and afterwards every
    velocity is zero while nothing else has changed. *)
Theorem resetVelocities_zeroes (this : ParticleSystem.t) :
  resetVelocities this =
    Some (set_velocities
            (replicate (length (velocities this)) (Vector3.mk 0 0 0)) this).
Proof.
  unfold resetVelocities.
  destruct (forLoop_total
    (fun (i : nat) (s : ParticleSystem.t) =>
       exists vs : list Vector3.t,
         s = set_velocities vs this /\
         length vs = length (velocities this) /\
         (forall j : nat, (j < i)%nat -> (j < length vs)%nat ->
            vs !! j = Some (Vector3.mk 0 0 0)))
    zero_velocity (length (velocities this)) 0%nat this)
    as (s & Hrun & vs & -> & Hlen & Hz).
  - exists (velocities this). split; [now destruct this |].
    split; [reflexivity |]. intros j Hj. lia.
  - intros i s Hi (vs & -> & Hlen & Hz).
    rewrite zero_velocity_spec by (cbn [velocities set_velocities]; lia).
    eexists. split; [reflexivity |].
    exists (<[i := Vector3.mk 0 0 0]> vs). split; [reflexivity |].
    rewrite length_insert. split; [exact Hlen |].
    intros j Hj Hjl. destruct (decide (j = i)) as [-> | Hne].
    + apply list_lookup_insert_eq. lia.
    + rewrite list_lookup_insert_ne by congruence. apply Hz; lia.
  - rewrite Hrun. do 2 f_equal. apply list_eq. intros j.
    destruct (decide (j < length vs)%nat) as [Hj | Hj].
    + rewrite Hz by lia. symmetry. apply lookup_replicate_2. lia.
    + rewrite (lookup_ge_None_2 vs) by lia.
      symmetry. apply lookup_ge_None_2. rewrite length_replicate. lia.
Qed.


(** The three writes of a position, read back. *)
Lemma insert3_lookup (l : list R) (i : nat) (a b c : R) :
  (i * 3 + 2 < length l)%nat ->
  let l' := <[(i * 3 + 2)%nat := c]>
              (<[(i * 3 + 1)%nat := b]> (<[(i * 3)%nat := a]> l)) in
  l' !! (i * 3)%nat = Some a /\
  l' !! (i * 3 + 1)%nat = Some b /\
  l' !! (i * 3 + 2)%nat = Some c /\
  length l' = length l /\
  forall k : nat,
    k <> (i * 3)%nat -> k <> (i * 3 + 1)%nat -> k <> (i * 3 + 2)%nat ->
    l' !! k = l !! k.
Proof.
  intros Hi l'. unfold l'. repeat split.
  - rewrite !list_lookup_insert_ne by lia. apply list_lookup_insert_eq. lia.
  - rewrite list_lookup_insert_ne by lia.
    apply list_lookup_insert_eq. rewrite length_insert. lia.
  - apply list_lookup_insert_eq. rewrite !length_insert. lia.
  - now rewrite !length_insert.
  - intros k H0 H1 H2. now rewrite !list_lookup_insert_ne by lia.
Qed.

Lemma reset_spec (this : ParticleSystem.t) :
  well_formed this ->
  length (originalPositions this) = particleCount this ->
  exists this' : ParticleSystem.t,
    reset this = Some this' /\
    well_formed this' /\
    colors this' = colors this /\
    sizes this' = sizes this /\
    originalPositions this' = originalPositions this /\
    forall (i : nat) (p : Vector3.t),
      originalPositions this !! i = Some p ->
      getPosition this' i = Some p /\
      velocities this' !! i = Some (Vector3.mk 0 0 0).
Proof.
  intros Hwf Horig. pose proof Hwf as (W1 & W2 & W3 & W4). unfold reset.
  destruct (forLoop_total
    (fun (i : nat) (s : ParticleSystem.t) =>
       particleCount s = particleCount this /\
       colors s = colors this /\
       sizes s = sizes this /\
       originalPositions s = originalPositions this /\
       length (positions s) = length (positions this) /\
       length (velocities s) = length (velocities this) /\
       forall (j : nat) (p : Vector3.t),
         (j < i)%nat -> originalPositions this !! j = Some p ->
         getPosition s j = Some p /\
         velocities s !! j = Some (Vector3.mk 0 0 0))
    reset_body (particleCount this) 0%nat this)
    as (s & Hrun & Hn & Hc & Hs & Ho & Hlp & Hlv & Hdone).
  - repeat split; try reflexivity; lia.
  - intros i s Hi (Hn & Hc & Hs & Ho & Hlp & Hlv & Hdone).
    destruct (lookup_lt_is_Some_2 (originalPositions this) i) as [p Hp];
      [lia |].
    unfold reset_body. rewrite Ho, Hp. cbn [mbind option_bind].
    rewrite zero_velocity_spec by (cbn [velocities set_positions]; lia).
    eexists. split; [reflexivity |].
    cbn [particleCount colors sizes originalPositions positions velocities
         set_velocities set_positions].
    rewrite !length_insert. repeat split; try assumption.
    + apply getPosition_lookup.
      cbn [positions set_velocities set_positions].
      destruct (insert3_lookup (positions s) i (Vector3.x p) (Vector3.y p)
                  (Vector3.z p) ltac:(lia)) as (E0 & E1 & E2 & _ & Hother).
      destruct (decide (j = i)) as [-> | Hne].
      * assert (p0 = p) by congruence. subst p0. auto.
      * destruct (Hdone j p0 ltac:(lia) H0) as [Hq _].
        apply getPosition_lookup in Hq.
        rewrite !Hother by lia. exact Hq.
    + destruct (decide (j = i)) as [-> | Hne].
      * apply list_lookup_insert_eq. lia.
      * rewrite list_lookup_insert_ne by congruence.
        exact (proj2 (Hdone j p0 ltac:(lia) H0)).
  - exists s. split; [exact Hrun |]. cbn [Nat.add] in Hdone.
    split; [unfold well_formed; rewrite Hn, Hc, Hs, Hlp, Hlv; auto |].
    repeat split; try assumption;
      apply (Hdone i p); try assumption;
      apply lookup_lt_Some in H; lia.
Qed.

(** [reset] on a well-formed system that has its original positions:
    every particle is back at its original position with velocity zero;
    colours, sizes and the original positions are kept. *)
Theorem reset_restores_originals (this : ParticleSystem.t) :
  well_formed this ->
  length (originalPositions this) = particleCount this ->
  exists this' : ParticleSystem.t,
    reset this = Some this' /\
    well_formed this' /\
    colors this' = colors this /\
    sizes this' = sizes this /\
    originalPositions this' = originalPositions this /\
    forall (i : nat) (p : Vector3.t),
      originalPositions this !! i = Some p ->
      getPosition this' i = Some p /\
      velocities this' !! i = Some (Vector3.mk 0 0 0).
Proof. apply reset_spec. Qed.

Lemma reset_restores_originals_witness :
  exists this' : ParticleSystem.t,
    reset twoParticles = Some this' /\
    getPosition this' 1 = Some (Vector3.mk 1 2 3) /\
    velocities this' !! 1%nat = Some (Vector3.mk 0 0 0).
Proof.
  destruct (reset_restores_originals twoParticles)
    as (this' & Hrun & _ & _ & _ & _ & Hall).
  - repeat split.
  - reflexivity.
  - exists this'. split; [exact Hrun |].
    exact (Hall 1%nat (Vector3.mk 1 2 3) eq_refl).
Defined.

Lemma update_body_keeps_originals (deltaTime : R) (i : nat)
    (s s' : ParticleSystem.t) :
  update_body deltaTime i s = Some s' ->
  originalPositions s' = originalPositions s.
Proof.
  unfold update_body, add_at. intros H.
  destruct (velocities s !! i) as [v |]; [| discriminate].
  cbn [mbind option_bind] in H.
  destruct (positions s !! (i * 3)%nat) as [px |]; [| discriminate].
  cbn [mbind option_bind] in H.
  destruct (_ !! (i * 3 + 1)%nat) as [py |]; [| discriminate].
  cbn [mbind option_bind] in H.
  destruct (_ !! (i * 3 + 2)%nat) as [pz |]; [| discriminate].
  cbn [mbind option_bind velocities set_positions] in H.
  destruct (velocities s !! i) as [w |]; [| discriminate].
  cbn [mbind option_bind] in H. injection H as <-. reflexivity.
Qed.

(** [reset] undoes the motion: after any number of calls of [update],
    [reset] puts every particle back at its original position, at
    rest. *)
Theorem reset_after_updates (n : nat) (deltaTime time : R) :
  forall this : ParticleSystem.t,
  well_formed this ->
  length (originalPositions this) = particleCount this ->
  exists moved back : ParticleSystem.t,
    updates n deltaTime time this = Some moved /\
    reset moved = Some back /\
    forall (i : nat) (p : Vector3.t),
      originalPositions this !! i = Some p ->
      getPosition back i = Some p /\
      velocities back !! i = Some (Vector3.mk 0 0 0).
Proof.
  induction n as [| n IH]; intros this Hwf Horig.
  - destruct (reset_spec this Hwf Horig)
      as (back & Hrun & _ & _ & _ & _ & Hall).
    exists this, back. auto.
  - destruct (update_spec deltaTime time this Hwf)
      as (s1 & Hrun1 & Hwf1 & _ & Hinv).
    assert (Ho : originalPositions s1 = originalPositions this).
    { unfold update in Hrun1.
      destruct (forLoop (update_body deltaTime) 0 (particleCount this) this)
        as [s0 |] eqn:Hloop; [| discriminate].
      cbn [mbind option_bind] in Hrun1. injection Hrun1 as <-.
      cbn [originalPositions set_uTime].
      exact (forLoop_preserves
               (fun s => originalPositions s = originalPositions this)
               (update_body deltaTime) (particleCount this)
               (fun i s s' HQ Hb =>
                  eq_trans (update_body_keeps_originals deltaTime i s s' Hb) HQ)
               0%nat this s0 eq_refl Hloop). }
    destruct Hinv as (Hn & _).
    destruct (IH s1 Hwf1 ltac:(rewrite Ho, Hn; exact Horig))
      as (moved & back & Hrun & Hreset & Hall).
    exists moved, back. split; [| split; [exact Hreset |]].
    + cbn [updates]. rewrite Hrun1. exact Hrun.
    + intros i p Hp. apply Hall. rewrite Ho. exact Hp.
Qed.

Lemma reset_after_updates_witness :
  exists moved back : ParticleSystem.t,
    updates 3 0.1 0 twoParticles = Some moved /\
    reset moved = Some back /\
    forall (i : nat) (p : Vector3.t),
      originalPositions twoParticles !! i = Some p ->
      getPosition back i = Some p /\
      velocities back !! i = Some (Vector3.mk 0 0 0).
Proof.
  apply (reset_after_updates 3 0.1 0 twoParticles).
  - repeat split.
  - reflexivity.
Defined.












End ParticleExtras.

(** ** The modes *)

Module ModeExtras.
Import GestureDetector NumFacts VectorFacts Statements ParticleFacts.
Import ParticleExtras Samples.










End ModeExtras.
